(** * aspectRatioResizer.js: the browser-side extension of the two resize nodes

    The file registers one extension with two hooks:
    - [setup] installs two listeners, [resizeInfoHandler] and
      [megapixelReducerHandler], that format an event payload as a
      multi-line text and write to the developer console;
    - [beforeRegisterNodeDef] wraps the [onNodeCreated] hook of the two node
      types so that every created node gets a title and two colours.

    The handlers are embedded over untyped JavaScript data (the payload is
    whatever the host delivers), in a state-and-exception monad whose state
    is the console.  The typed events of the data model are encoded into
    that data, and the properties are stated on the encoded events. *)

From Stdlib Require Import Ascii.
From stdpp Require Import base option list strings pretty gmap.

Local Open Scope stdpp_scope.
Set Warnings "-register-all".

(** ** JavaScript numbers

    A payload number is an IEEE double.  Its arithmetic is not needed here:
    the program only prints numbers ([ToString], [toFixed]) and tests them
    for truthiness, so these three operations are the interface. *)
Class JSNumber := {
  number : Type;
  (* Number::toString, radix 10 *)
  Number_toString : number → string;
  (* Number.prototype.toFixed(fractionDigits) *)
  Number_toFixed : number → nat → string;
  (* ToBoolean: false on +0, -0 and NaN *)
  Number_toBoolean : number → bool
}.

(** Integer-valued numbers below 10^21 print as their decimal digits, and
    [toFixed] pads the fraction with zeros. *)
Definition Z_toFixed (z : Z) (digits : nat) : string :=
  match digits with
  | 0 => pretty z
  | S _ => pretty z +:+ "." +:+ String.concat EmptyString (replicate digits "0")
  end.

Definition IntegerNumber : JSNumber :=
  {| number := Z;
     Number_toString := pretty;
     Number_toFixed := Z_toFixed;
     Number_toBoolean := λ z, negb (Z.eqb z 0) |}.

(** The line feed of the template literals. *)
Definition LF : string := String "010"%char EmptyString.

(** ** Completions and the statement monad *)

Inductive exception : Type :=
  | TypeError (* thrown by the language: property of undefined, not a function *)
  | HostError (what : string) (* thrown by code of the host *).

Inductive completion (A : Type) : Type :=
  | Normal (a : A)
  | Throw (e : exception).
Arguments Normal {A} a.
Arguments Throw {A} e.

Definition cbind {A B} (c : completion A) (k : A → completion B) : completion B :=
  match c with
  | Normal a => k a
  | Throw e => Throw e
  end.

(** A statement runs on a state [St] (the console for the handlers, the
    receiver for the node hooks); a throw keeps the state reached so far. *)
Definition JS (St A : Type) : Type := St → completion A * St.

Definition ret {St A} (a : A) : JS St A := λ s, (Normal a, s).

Definition bind {St A B} (m : JS St A) (k : A → JS St B) : JS St B :=
  λ s, match m s with
       | (Normal a, s') => k a s'
       | (Throw e, s') => (Throw e, s')
       end.

(** An expression, which may throw and leaves the state alone. *)
Definition lift {St A} (c : completion A) : JS St A := λ s, (c, s).

(** A computation that throws nothing but a TypeError. *)
Definition TypeError_only {A} (c : completion A) : Prop :=
  ∀ e, c = Throw e → e = TypeError.

Declare Scope js_scope.
Delimit Scope js_scope with js.
Notation "'let!' x ':=' m 'in' k" := (bind m (λ x, k))
  (at level 10, x name, m at level 100, k at level 200) : js_scope.
Notation "m ;;; k" := (bind m (λ _, k))
  (at level 100, k at level 200, right associativity) : js_scope.
Notation "'let?' x ':=' c 'in' k" := (cbind c (λ x, k))
  (at level 10, x name, c at level 100, k at level 200) : js_scope.
Local Open Scope js_scope.

Section Values.
Context `{JSNumber}.

(** ** Payload data

    The detail of an event is data decoded by the host: no functions, no
    symbols.  An object keeps its own properties in insertion order. *)
Inductive value : Type :=
  | VUndefined
  | VNull
  | VBool (b : bool)
  | VNum (n : number)
  | VStr (s : string)
  | VArr (items : list value)
  | VObj (fields : list (string * value)).

(** Own property of an object, by name. *)
Fixpoint own_property (fields : list (string * value)) (P : string) : option value :=
  match fields with
  | [] => None
  | (k, v) :: rest => if String.eqb k P then Some v else own_property rest P
  end.

(** [O.P] for the names this file reads ([constraints], [resize_mode],
    [enable_width], [enable_height], [batch_size], [resize_info],
    [max_megapixels], [original_megapixels], [only_reduce], [original],
    [new], [scale], [constraint], [megapixels]): none of them is an index,
    [length], or a member of a built-in prototype, so a value that has no own
    property of that name reads as undefined; reading a property of
    undefined or null throws. *)
Definition Get (O : value) (P : string) : completion value :=
  match O with
  | VUndefined | VNull => Throw TypeError
  | VObj fields => Normal (default VUndefined (own_property fields P))
  | VBool _ | VNum _ | VStr _ | VArr _ => Normal VUndefined
  end.

(** [ToString] of a template substitution.  An array prints the join of its
    elements with commas, undefined and null elements as empty text.  An
    ordinary object prints through Object.prototype.toString unless an own
    data property shadows [toString]: then no callable conversion is left
    (valueOf returns the object itself) and the conversion throws. *)
Fixpoint ToString (v : value) : completion string :=
  match v with
  | VUndefined => Normal "undefined"
  | VNull => Normal "null"
  | VBool true => Normal "true"
  | VBool false => Normal "false"
  | VNum n => Normal (Number_toString n)
  | VStr s => Normal s
  | VArr items =>
      let element (x : value) : completion string :=
        match x with
        | VUndefined | VNull => Normal EmptyString
        | _ => ToString x
        end in
      (fix join (l : list value) : completion string :=
         match l with
         | [] => Normal EmptyString
         | [x] => element x
         | x :: rest =>
             let? s := element x in
             let? r := join rest in
             Normal (s +:+ "," +:+ r)
         end) items
  | VObj fields =>
      match own_property fields "toString" with
      | Some _ => Throw TypeError
      | None => Normal "[object Object]"
      end
  end.

(** [ToBoolean] of an [if] condition. *)
Definition ToBoolean (v : value) : bool :=
  match v with
  | VUndefined | VNull => false
  | VBool b => b
  | VNum n => Number_toBoolean n
  | VStr s => negb (String.eqb s EmptyString)
  | VArr _ | VObj _ => true
  end.

(** ** Built-in methods the handlers invoke

    A method call on undefined or null throws on the property read; on any
    other receiver without that method it throws at the call.  Payload
    objects hold data only, so an own property of the method's name is not
    callable either. *)

(** Array.prototype.forEach: elements in order, each with its index.  The
    callback of the source updates a captured variable, here the
    accumulator [a]. *)
Fixpoint forEach_from {A} (callbackfn : value → nat → A → completion A)
    (items : list value) (index : nat) (a : A) : completion A :=
  match items with
  | [] => Normal a
  | x :: rest =>
      let? a' := callbackfn x index a in
      forEach_from callbackfn rest (S index) a'
  end.

Definition Invoke_forEach {A} (O : value)
    (callbackfn : value → nat → A → completion A) (a : A) : completion A :=
  match O with
  | VArr items => forEach_from callbackfn items 0 a
  | _ => Throw TypeError
  end.

(** Array.prototype.some: stops at the first element the predicate accepts. *)
Fixpoint some_of (predicate : value → completion bool) (items : list value)
    : completion bool :=
  match items with
  | [] => Normal false
  | x :: rest =>
      let? b := predicate x in
      if b then Normal true else some_of predicate rest
  end.

Definition Invoke_some (O : value) (predicate : value → completion bool)
    : completion bool :=
  match O with
  | VArr items => some_of predicate items
  | _ => Throw TypeError
  end.

(** String.prototype.includes: [search] occurs somewhere in [s]. *)
Fixpoint String_includes (s search : string) : bool :=
  String.prefix search s ||
  match s with
  | EmptyString => false
  | String _ s' => String_includes s' search
  end.

(** Strict equality of a value with a string literal. *)
Definition is_string (v : value) (lit : string) : bool :=
  match v with
  | VStr s => String.eqb s lit
  | _ => false
  end.

(** [O.includes(lit)]: strings search a substring, arrays an element. *)
Definition Invoke_includes (O : value) (lit : string) : completion bool :=
  match O with
  | VStr s => Normal (String_includes s lit)
  | VArr items => Normal (existsb (λ x, is_string x lit) items)
  | _ => Throw TypeError
  end.

(** [O.toFixed(digits)]: only numbers have it. *)
Definition Invoke_toFixed (O : value) (digits : nat) : completion string :=
  match O with
  | VNum n => Normal (Number_toFixed n digits)
  | _ => Throw TypeError
  end.

(** One call of console.log is the list of its arguments. *)
Definition console : Type := list (list value).

Definition console_log (args : list value) : JS console value :=
  λ c, (Normal VUndefined, c ++ [args]).

(** A template substitution [${O.P}]. *)
Definition substitute (O : value) (P : string) : completion string :=
  let? v := Get O P in
  ToString v.

(** ** The two listeners of [setup] *)

(** The test of both [some] calls:
    [info.new !== "unchanged" && !info.new.includes("unchanged")]. *)
Definition was_resized (info : value) : completion bool :=
  let? new := Get info "new" in
  if negb (is_string new "unchanged") then
    let? new := Get info "new" in
    let? found := Invoke_includes new "unchanged" in
    Normal (negb found)
  else Normal false.

(** The callback of the first [forEach] (source lines 19 to 25): the line
    of one image, appended to the captured [message]. *)
Definition resizeInfoLine (info : value) (index : nat) (message : string)
    : completion string :=
  let? original := substitute info "original" in
  let? new := substitute info "new" in
  let? scale := substitute info "scale" in
  let line := "Image " +:+ pretty (index + 1) +:+ ": " +:+ original +:+ " → "
                +:+ new +:+ " (scale: " +:+ scale +:+ ")" in
  let? constraint := Get info "constraint" in
  let? line :=
    if ToBoolean constraint then
      let? constraint := substitute info "constraint" in
      Normal (line +:+ (" [" +:+ constraint +:+ "]"))
    else Normal line in
  Normal (message +:+ (line +:+ LF)).

(** The text [resizeInfoHandler] builds before it logs (source lines 12 to
    25). *)
Definition resizeInfoMessage (data : value) : completion string :=
  let message := "Aspect Ratio Resizer Results:" +:+ LF in
  let? constraints := substitute data "constraints" in
  let message := message +:+ ("Constraints: " +:+ constraints +:+ LF) in
  let? resize_mode := substitute data "resize_mode" in
  let message := message +:+ ("Resize Mode: " +:+ resize_mode +:+ LF) in
  let? enable_width := substitute data "enable_width" in
  let message := message +:+ ("Width Enabled: " +:+ enable_width +:+ LF) in
  let? enable_height := substitute data "enable_height" in
  let message := message +:+ ("Height Enabled: " +:+ enable_height +:+ LF) in
  let? batch_size := substitute data "batch_size" in
  let message := message +:+ ("Batch Size: " +:+ batch_size +:+ LF +:+ LF) in
  let? resize_info := Get data "resize_info" in
  Invoke_forEach resize_info resizeInfoLine message.

(** [resizeInfoHandler(event)]: build the message, log the raw detail, and
    log the message when [some] finds a resized image. *)
Definition resizeInfoHandler (event : value) : JS console value :=
  let! data := lift (Get event "detail") in
  let! message := lift (resizeInfoMessage data) in
  console_log [VStr "Aspect Ratio Resizer:"; data] ;;;
  let! resize_info := lift (Get data "resize_info") in
  let! any := lift (Invoke_some resize_info was_resized) in
  if any then console_log [VStr message] ;;; ret VUndefined
  else ret VUndefined.

(** The callback of the second [forEach] (source lines 50 to 54). *)
Definition megapixelReducerLine (info : value) (index : nat) (message : string)
    : completion string :=
  let? original := substitute info "original" in
  let? new := substitute info "new" in
  let line := "Image " +:+ pretty (index + 1) +:+ ": " +:+ original +:+ " → "
                +:+ new in
  let? megapixels := substitute info "megapixels" in
  let? scale := substitute info "scale" in
  let line := line +:+ (" (" +:+ megapixels +:+ ") [scale: " +:+ scale +:+ "]") in
  Normal (message +:+ (line +:+ LF)).

(** The text [megapixelReducerHandler] builds before it logs (source lines
    44 to 54). *)
Definition megapixelReducerMessage (data : value) : completion string :=
  let message := "Auto Megapixel Reducer Results:" +:+ LF in
  let? max_megapixels := substitute data "max_megapixels" in
  let message := message +:+ ("Target: " +:+ max_megapixels +:+ "MP" +:+ LF) in
  let? original_megapixels := Get data "original_megapixels" in
  let? fixed := Invoke_toFixed original_megapixels 2 in
  let message := message +:+ ("Original: " +:+ fixed +:+ "MP" +:+ LF) in
  let? only_reduce := substitute data "only_reduce" in
  let message := message +:+ ("Only Reduce Mode: " +:+ only_reduce +:+ LF) in
  let? batch_size := substitute data "batch_size" in
  let message := message +:+ ("Batch Size: " +:+ batch_size +:+ LF +:+ LF) in
  let? resize_info := Get data "resize_info" in
  Invoke_forEach resize_info megapixelReducerLine message.

(** [megapixelReducerHandler(event)], of the same shape. *)
Definition megapixelReducerHandler (event : value) : JS console value :=
  let! data := lift (Get event "detail") in
  let! message := lift (megapixelReducerMessage data) in
  console_log [VStr "Auto Megapixel Reducer:"; data] ;;;
  let! resize_info := lift (Get data "resize_info") in
  let! any := lift (Invoke_some resize_info was_resized) in
  if any then console_log [VStr message] ;;; ret VUndefined
  else ret VUndefined.


(** ** The data model: well-formed events and their encoding *)

Record ResizeInfoEntry : Type := {
  original : string;
  new : string;
  scale : string;
  constraint : option string
}.

Record ResizeInfoEvent : Type := {
  constraints : string;
  resize_mode : string;
  enable_width : bool;
  enable_height : bool;
  batch_size : number;
  resize_info : list ResizeInfoEntry
}.

Record MegapixelEntry : Type := {
  mp_original : string;
  mp_new : string;
  mp_megapixels : string;
  mp_scale : string
}.

Record MegapixelReducerEvent : Type := {
  max_megapixels : number;
  original_megapixels : number;
  only_reduce : bool;
  mp_batch_size : number;
  mp_resize_info : list MegapixelEntry
}.

(** An optional field is an own property when present, no property otherwise. *)
Definition with_field (P : string) (present : option value)
    (rest : list (string * value)) : list (string * value) :=
  match present with
  | Some v => (P, v) :: rest
  | None => rest
  end.

Definition entry_value (e : ResizeInfoEntry) : value :=
  VObj (("original", VStr (original e))
        :: ("new", VStr (new e))
        :: ("scale", VStr (scale e))
        :: with_field "constraint" (VStr <$> constraint e) []).

Definition resize_detail (ev : ResizeInfoEvent) : value :=
  VObj [("constraints", VStr (constraints ev));
        ("resize_mode", VStr (resize_mode ev));
        ("enable_width", VBool (enable_width ev));
        ("enable_height", VBool (enable_height ev));
        ("batch_size", VNum (batch_size ev));
        ("resize_info", VArr (entry_value <$> resize_info ev))].

Definition mp_entry_value (e : MegapixelEntry) : value :=
  VObj [("original", VStr (mp_original e));
        ("new", VStr (mp_new e));
        ("megapixels", VStr (mp_megapixels e));
        ("scale", VStr (mp_scale e))].

Definition megapixel_detail (ev : MegapixelReducerEvent) : value :=
  VObj [("max_megapixels", VNum (max_megapixels ev));
        ("original_megapixels", VNum (original_megapixels ev));
        ("only_reduce", VBool (only_reduce ev));
        ("batch_size", VNum (mp_batch_size ev));
        ("resize_info", VArr (mp_entry_value <$> mp_resize_info ev))].

(** The event object the host dispatches around a detail. *)
Definition CustomEvent (detail : value) : value := VObj [("detail", detail)].

(** ** Texts: what the claims say about strings *)

(** [sub] occurs in [s]. *)
Definition contains (s sub : string) : Prop :=
  ∃ before after, s = before +:+ sub +:+ after.

(** The text of a list of lines, each closed by a line feed. *)
Fixpoint lines_text (lines : list string) : string :=
  match lines with
  | [] => EmptyString
  | line :: rest => line +:+ LF +:+ lines_text rest
  end.

Definition bool_text (b : bool) : string := if b then "true" else "false".

(** The printed form of a value that is no object: what a template
    substitution yields for it, [undefined] for a missing field. *)
Definition scalar (v : value) : bool :=
  match v with
  | VArr _ | VObj _ => false
  | _ => true
  end.

Definition text (v : value) : string :=
  match v with
  | VUndefined => "undefined"
  | VNull => "null"
  | VBool b => bool_text b
  | VNum n => Number_toString n
  | VStr s => s
  | VArr _ | VObj _ => EmptyString
  end.

(** The value a property read yields on an object, undefined when the
    object has no such own property. *)
Definition field (O : value) (P : string) : value :=
  match O with
  | VObj fields => default VUndefined (own_property fields P)
  | _ => VUndefined
  end.

Definition is_object (O : value) : bool :=
  match O with
  | VObj _ => true
  | _ => false
  end.

(** An object all of whose listed fields are missing or hold no object. *)
Definition scalar_fields (names : list string) (O : value) : bool :=
  is_object O && forallb (λ P, scalar (field O P)) names.

(** The image line of an entry object, as the first [forEach] prints it. *)
Definition resize_line_of (index : nat) (info : value) : string :=
  "Image " +:+ pretty (index + 1) +:+ ": " +:+ text (field info "original")
    +:+ " → " +:+ text (field info "new")
    +:+ " (scale: " +:+ text (field info "scale") +:+ ")"
    +:+ (if ToBoolean (field info "constraint")
         then " [" +:+ text (field info "constraint") +:+ "]"
         else EmptyString).

Definition resize_header_of (data : value) : string :=
  "Aspect Ratio Resizer Results:" +:+ LF
    +:+ "Constraints: " +:+ text (field data "constraints") +:+ LF
    +:+ "Resize Mode: " +:+ text (field data "resize_mode") +:+ LF
    +:+ "Width Enabled: " +:+ text (field data "enable_width") +:+ LF
    +:+ "Height Enabled: " +:+ text (field data "enable_height") +:+ LF
    +:+ "Batch Size: " +:+ text (field data "batch_size") +:+ LF +:+ LF.

(** The image line of an entry object, as the second [forEach] prints it. *)
Definition megapixel_line_of (index : nat) (info : value) : string :=
  "Image " +:+ pretty (index + 1) +:+ ": " +:+ text (field info "original")
    +:+ " → " +:+ text (field info "new")
    +:+ " (" +:+ text (field info "megapixels")
    +:+ ") [scale: " +:+ text (field info "scale") +:+ "]".

Definition megapixel_header_of (data : value) (fixed : string) : string :=
  "Auto Megapixel Reducer Results:" +:+ LF
    +:+ "Target: " +:+ text (field data "max_megapixels") +:+ "MP" +:+ LF
    +:+ "Original: " +:+ fixed +:+ "MP" +:+ LF
    +:+ "Only Reduce Mode: " +:+ text (field data "only_reduce") +:+ LF
    +:+ "Batch Size: " +:+ text (field data "batch_size") +:+ LF +:+ LF.

(** *** The rendering the specification describes

    A header block of the scalar fields, then one line per entry showing
    original → new, the scale factor and, when there is one to show, the
    constraint that triggered the resize. *)

Definition constraint_suffix (constraint : option string) : string :=
  match constraint with
  | Some c => if String.eqb c EmptyString then EmptyString else " [" +:+ c +:+ "]"
  | None => EmptyString
  end.

Definition image_line (index : nat) (e : ResizeInfoEntry) : string :=
  "Image " +:+ pretty (index + 1) +:+ ": " +:+ original e +:+ " → " +:+ new e
    +:+ " (scale: " +:+ scale e +:+ ")" +:+ constraint_suffix (constraint e).

Definition resize_header (ev : ResizeInfoEvent) : string :=
  "Aspect Ratio Resizer Results:" +:+ LF
    +:+ "Constraints: " +:+ constraints ev +:+ LF
    +:+ "Resize Mode: " +:+ resize_mode ev +:+ LF
    +:+ "Width Enabled: " +:+ bool_text (enable_width ev) +:+ LF
    +:+ "Height Enabled: " +:+ bool_text (enable_height ev) +:+ LF
    +:+ "Batch Size: " +:+ Number_toString (batch_size ev) +:+ LF +:+ LF.

Definition resize_message (ev : ResizeInfoEvent) : string :=
  resize_header ev +:+ lines_text (imap image_line (resize_info ev)).

Definition mp_image_line (index : nat) (e : MegapixelEntry) : string :=
  "Image " +:+ pretty (index + 1) +:+ ": " +:+ mp_original e +:+ " → " +:+ mp_new e
    +:+ " (" +:+ mp_megapixels e +:+ ") [scale: " +:+ mp_scale e +:+ "]".

Definition megapixel_header (ev : MegapixelReducerEvent) : string :=
  "Auto Megapixel Reducer Results:" +:+ LF
    +:+ "Target: " +:+ Number_toString (max_megapixels ev) +:+ "MP" +:+ LF
    +:+ "Original: " +:+ Number_toFixed (original_megapixels ev) 2 +:+ "MP" +:+ LF
    +:+ "Only Reduce Mode: " +:+ bool_text (only_reduce ev) +:+ LF
    +:+ "Batch Size: " +:+ Number_toString (mp_batch_size ev) +:+ LF +:+ LF.

Definition megapixel_message (ev : MegapixelReducerEvent) : string :=
  megapixel_header ev +:+ lines_text (imap mp_image_line (mp_resize_info ev)).

(** Some image of the batch was resized: its [new] text does not mention
    [unchanged]. *)
Definition any_resized (news : list string) : bool :=
  existsb (λ s, negb (String_includes s "unchanged")) news.

(** *** Malformed payloads: any field of the data model may be missing *)

Record MalformedEntry : Type := {
  m_original : option string;
  m_new : option string;
  m_scale : option string;
  m_constraint : option string;
  m_megapixels : option string
}.

Record MalformedEvent : Type := {
  m_constraints : option string;
  m_resize_mode : option string;
  m_enable_width : option bool;
  m_enable_height : option bool;
  m_max_megapixels : option number;
  m_original_megapixels : option number;
  m_only_reduce : option bool;
  m_batch_size : option number;
  m_resize_info : option (list MalformedEntry)
}.

Definition malformed_entry_value (e : MalformedEntry) : value :=
  VObj (with_field "original" (VStr <$> m_original e)
       (with_field "new" (VStr <$> m_new e)
       (with_field "scale" (VStr <$> m_scale e)
       (with_field "constraint" (VStr <$> m_constraint e)
       (with_field "megapixels" (VStr <$> m_megapixels e) []))))).

Definition malformed_detail (ev : MalformedEvent) : value :=
  VObj (with_field "constraints" (VStr <$> m_constraints ev)
       (with_field "resize_mode" (VStr <$> m_resize_mode ev)
       (with_field "enable_width" (VBool <$> m_enable_width ev)
       (with_field "enable_height" (VBool <$> m_enable_height ev)
       (with_field "max_megapixels" (VNum <$> m_max_megapixels ev)
       (with_field "original_megapixels" (VNum <$> m_original_megapixels ev)
       (with_field "only_reduce" (VBool <$> m_only_reduce ev)
       (with_field "batch_size" (VNum <$> m_batch_size ev)
       (with_field "resize_info"
          (VArr ∘ fmap malformed_entry_value <$> m_resize_info ev) []))))))))).

(** A missing field is shown as the text [undefined]. *)
Definition shown (field : option string) : string := default "undefined" field.

Definition malformed_resize_line (index : nat) (e : MalformedEntry) : string :=
  "Image " +:+ pretty (index + 1) +:+ ": " +:+ shown (m_original e)
    +:+ " → " +:+ shown (m_new e)
    +:+ " (scale: " +:+ shown (m_scale e) +:+ ")"
    +:+ constraint_suffix (m_constraint e).

Definition malformed_resize_message (ev : MalformedEvent)
    (entries : list MalformedEntry) : string :=
  "Aspect Ratio Resizer Results:" +:+ LF
    +:+ "Constraints: " +:+ shown (m_constraints ev) +:+ LF
    +:+ "Resize Mode: " +:+ shown (m_resize_mode ev) +:+ LF
    +:+ "Width Enabled: " +:+ shown (bool_text <$> m_enable_width ev) +:+ LF
    +:+ "Height Enabled: " +:+ shown (bool_text <$> m_enable_height ev) +:+ LF
    +:+ "Batch Size: " +:+ shown (Number_toString <$> m_batch_size ev) +:+ LF +:+ LF
    +:+ lines_text (imap malformed_resize_line entries).

Definition malformed_megapixel_line (index : nat) (e : MalformedEntry) : string :=
  "Image " +:+ pretty (index + 1) +:+ ": " +:+ shown (m_original e)
    +:+ " → " +:+ shown (m_new e)
    +:+ " (" +:+ shown (m_megapixels e)
    +:+ ") [scale: " +:+ shown (m_scale e) +:+ "]".

Definition malformed_megapixel_message (ev : MalformedEvent)
    (original_megapixels : number) (entries : list MalformedEntry) : string :=
  "Auto Megapixel Reducer Results:" +:+ LF
    +:+ "Target: " +:+ shown (Number_toString <$> m_max_megapixels ev) +:+ "MP" +:+ LF
    +:+ "Original: " +:+ Number_toFixed original_megapixels 2 +:+ "MP" +:+ LF
    +:+ "Only Reduce Mode: " +:+ shown (bool_text <$> m_only_reduce ev) +:+ LF
    +:+ "Batch Size: " +:+ shown (Number_toString <$> m_batch_size ev) +:+ LF +:+ LF
    +:+ lines_text (imap malformed_megapixel_line entries).

(** ** [beforeRegisterNodeDef]: the decorator of the two node types *)

(** A node instance is its properties; [this.P = v] writes one. *)
Definition Put (P : string) (v : value) : JS (gmap string value) value :=
  λ this, (Normal v, <[P := v]> this).

(** A function of the host called as a method: the arguments of the call,
    then the receiver it may read and update. *)
Definition method : Type := list value → JS (gmap string value) value.

(** What a prototype holds under a name: data (undefined when the name is
    absent) or a function. *)
Inductive member : Type :=
  | Data (v : value)
  | Function (f : method).

Record Prototype : Type := {
  onNodeCreated : member;
  members : gmap string member
}.

Record NodeType : Type := { prototype : Prototype }.

Record NodeData : Type := { name : value }.

(** [onNodeCreated?.apply(this, arguments)]: undefined when the hook is
    undefined or null, the call when it is a function; any other value has
    no callable [apply]. *)
Definition optional_apply (onNodeCreated : member) (arguments : list value)
    : JS (gmap string value) value :=
  match onNodeCreated with
  | Data VUndefined | Data VNull => ret VUndefined
  | Data _ => lift (Throw TypeError)
  | Function f => f arguments
  end.

(** The function installed for AspectRatioResizer; [onNodeCreated] is the
    hook captured when the node type was registered. *)
Definition onNodeCreated_AspectRatioResizer (onNodeCreated : member) : method :=
  λ arguments,
    let! result := optional_apply onNodeCreated arguments in
    Put "title" (VStr "Aspect Ratio Resizer") ;;;
    Put "color" (VStr "#2a4d3a") ;;;
    Put "bgcolor" (VStr "#335544") ;;;
    ret result.

(** The function installed for AutoMegapixelReducer. *)
Definition onNodeCreated_AutoMegapixelReducer (onNodeCreated : member) : method :=
  λ arguments,
    let! result := optional_apply onNodeCreated arguments in
    Put "title" (VStr "Auto Megapixel Reducer") ;;;
    Put "color" (VStr "#4d2a3a") ;;;
    Put "bgcolor" (VStr "#553344") ;;;
    ret result.

(** [nodeType.prototype.onNodeCreated = f]. *)
Definition set_onNodeCreated (nodeType : NodeType) (f : member) : NodeType :=
  {| prototype := {| onNodeCreated := f;
                     members := members (prototype nodeType) |} |}.

Definition beforeRegisterNodeDef (nodeType : NodeType) (nodeData : NodeData)
    : NodeType :=
  let nodeType :=
    if is_string (name nodeData) "AspectRatioResizer" then
      let onNodeCreated := onNodeCreated (prototype nodeType) in
      set_onNodeCreated nodeType
        (Function (onNodeCreated_AspectRatioResizer onNodeCreated))
    else nodeType in
  let nodeType :=
    if is_string (name nodeData) "AutoMegapixelReducer" then
      let onNodeCreated := onNodeCreated (prototype nodeType) in
      set_onNodeCreated nodeType
        (Function (onNodeCreated_AutoMegapixelReducer onNodeCreated))
    else nodeType in
  nodeType.

(** The title and the two colours of a node. *)
Definition decoration (this : gmap string value)
    : option value * option value * option value :=
  (this !! "title", this !! "color", this !! "bgcolor").

(** The three assignments of a wrapped hook, in the order of the source. *)
Definition decorate (title color bgcolor : string) (this : gmap string value)
    : gmap string value :=
  <["bgcolor" := VStr bgcolor]>
    (<["color" := VStr color]> (<["title" := VStr title]> this)).

(** A wrapped hook runs the captured one on the same arguments and
    receiver; when that returns, it decorates the receiver the hook left and
    returns the hook's result; when that throws, nothing else happens. *)
Definition runs_then_decorates (title color bgcolor : string)
    (onNodeCreated : member) (wrapped : method) : Prop :=
  ∀ arguments this,
    wrapped arguments this
    = match optional_apply onNodeCreated arguments this with
      | (Normal result, this') => (Normal result, decorate title color bgcolor this')
      | (Throw e, this') => (Throw e, this')
      end.

(** ** Events as the host delivers them to the listeners of [setup] *)

Inductive Event : Type :=
  | ResizeInfo (ev : ResizeInfoEvent)
  | MegapixelReducer (ev : MegapixelReducerEvent).

(** [setup] registers [resizeInfoHandler] for the first kind of event and
    [megapixelReducerHandler] for the second. *)
Definition handle (e : Event) : JS console value :=
  match e with
  | ResizeInfo ev => resizeInfoHandler (CustomEvent (resize_detail ev))
  | MegapixelReducer ev => megapixelReducerHandler (CustomEvent (megapixel_detail ev))
  end.

(** The [new] fields of the entries of an event, in order. *)
Definition new_fields (e : Event) : list string :=
  match e with
  | ResizeInfo ev => new <$> resize_info ev
  | MegapixelReducer ev => mp_new <$> mp_resize_info ev
  end.

(** The arguments of the first console.log: a label and the raw detail. *)
Definition raw_log (e : Event) : list value :=
  match e with
  | ResizeInfo ev => [VStr "Aspect Ratio Resizer:"; resize_detail ev]
  | MegapixelReducer ev => [VStr "Auto Megapixel Reducer:"; megapixel_detail ev]
  end.

(** The formatted multi-line message of an event. *)
Definition formatted (e : Event) : string :=
  match e with
  | ResizeInfo ev => resize_message ev
  | MegapixelReducer ev => megapixel_message ev
  end.

End Values.

Arguments value : clear implicits.
Arguments ResizeInfoEvent : clear implicits.
Arguments MegapixelReducerEvent : clear implicits.
Arguments MalformedEvent : clear implicits.
Arguments NodeType : clear implicits.
Arguments NodeData : clear implicits.
Arguments member : clear implicits.
Arguments method : clear implicits.

Arguments Event : clear implicits.

(** The lines of a text, as [text.split("\n")] gives them. *)
Fixpoint split_lines (s : string) : list string :=
  match s with
  | EmptyString => [EmptyString]
  | String a s' =>
      match split_lines s' with
      | [] => []
      | line :: rest =>
          if Ascii.eqb a "010" then EmptyString :: line :: rest
          else String a line :: rest
      end
  end.

(** A text without a line feed. *)
Fixpoint single_line (s : string) : bool :=
  match s with
  | EmptyString => true
  | String a s' => negb (Ascii.eqb a "010") && single_line s'
  end.

(** A line of the shape the [forEach] callbacks print. *)
Definition is_image_line (line : string) : bool := String.prefix "Image " line.

(** An event no text of which holds a line feed. *)
Definition single_line_entry (e : ResizeInfoEntry) : bool :=
  single_line (original e) && single_line (new e) && single_line (scale e)
  && from_option single_line true (constraint e).

Definition single_line_event `{JSNumber} (ev : ResizeInfoEvent _) : bool :=
  single_line (constraints ev) && single_line (resize_mode ev)
  && single_line (Number_toString (batch_size ev))
  && forallb single_line_entry (resize_info ev).

(** The node types the extension decorates, each with its title, colour
    and background colour. *)
Definition styles : list (string * (string * string * string)) :=
  [("AspectRatioResizer", ("Aspect Ratio Resizer", "#2a4d3a", "#335544"));
   ("AutoMegapixelReducer", ("Auto Megapixel Reducer", "#4d2a3a", "#553344"))].

(** ** Concrete events, over integer-valued numbers *)

(** The event of the specification's example. *)
Definition example_event : ResizeInfoEvent IntegerNumber :=
  {| constraints := "width";
     resize_mode := "downscale_only";
     enable_width := true;
     enable_height := false;
     batch_size := (1%Z : @number IntegerNumber);
     resize_info :=
       [{| original := "1920x1080"; new := "1024x576"; scale := "0.533";
           constraint := None |}] |}.

(** An image the backend left alone, with a [new] text that says so in more
    words than the bare [unchanged]. *)
Definition annotated_event : ResizeInfoEvent IntegerNumber :=
  {| constraints := "width";
     resize_mode := "downscale_only";
     enable_width := true;
     enable_height := false;
     batch_size := (1%Z : @number IntegerNumber);
     resize_info :=
       [{| original := "800x600"; new := "800x600 (unchanged)"; scale := "1.000";
           constraint := None |}] |}.

(** A batch of two images that were both left alone. *)
Definition untouched_event : ResizeInfoEvent IntegerNumber :=
  {| constraints := "both";
     resize_mode := "downscale_only";
     enable_width := true;
     enable_height := true;
     batch_size := (2%Z : @number IntegerNumber);
     resize_info :=
       [{| original := "800x600"; new := "unchanged"; scale := "1.000";
           constraint := None |};
        {| original := "640x480"; new := "unchanged"; scale := "1.000";
           constraint := None |}] |}.

(** An entry whose constraint field is present and empty. *)
Definition empty_constraint_event : ResizeInfoEvent IntegerNumber :=
  {| constraints := "none";
     resize_mode := "both";
     enable_width := false;
     enable_height := false;
     batch_size := (1%Z : @number IntegerNumber);
     resize_info :=
       [{| original := "800x600"; new := "400x300"; scale := "0.500";
           constraint := Some EmptyString |}] |}.

(** An entry limited by its width. *)
Definition width_limited_event : ResizeInfoEvent IntegerNumber :=
  {| constraints := "width";
     resize_mode := "both";
     enable_width := true;
     enable_height := false;
     batch_size := (1%Z : @number IntegerNumber);
     resize_info :=
       [{| original := "800x600"; new := "400x300"; scale := "0.500";
           constraint := Some "width" |}] |}.

(** A megapixel event of one reduced image. *)
Definition reduced_event : MegapixelReducerEvent IntegerNumber :=
  {| max_megapixels := (2%Z : @number IntegerNumber);
     original_megapixels := (8%Z : @number IntegerNumber);
     only_reduce := true;
     mp_batch_size := (1%Z : @number IntegerNumber);
     mp_resize_info :=
       [{| mp_original := "3840x2160"; mp_new := "1884x1060";
           mp_megapixels := "2.0MP"; mp_scale := "0.491" |}] |}.

(** A payload that carries nothing. *)
Definition empty_payload : MalformedEvent IntegerNumber :=
  {| m_constraints := None; m_resize_mode := None; m_enable_width := None;
     m_enable_height := None; m_max_megapixels := None;
     m_original_megapixels := None; m_only_reduce := None;
     m_batch_size := None; m_resize_info := None |}.

(** A payload with its entries but no original_megapixels. *)
Definition no_megapixels_payload : MalformedEvent IntegerNumber :=
  {| m_constraints := None; m_resize_mode := None; m_enable_width := None;
     m_enable_height := None; m_max_megapixels := Some (2%Z : @number IntegerNumber);
     m_original_megapixels := None; m_only_reduce := Some true;
     m_batch_size := Some (1%Z : @number IntegerNumber);
     m_resize_info := Some [] |}.

(** A payload with only its entries, one of them without dimensions. *)
Definition entries_only_payload : MalformedEvent IntegerNumber :=
  {| m_constraints := None; m_resize_mode := None; m_enable_width := None;
     m_enable_height := None; m_max_megapixels := None;
     m_original_megapixels := Some (8%Z : @number IntegerNumber);
     m_only_reduce := None; m_batch_size := None;
     m_resize_info :=
       Some [{| m_original := None; m_new := Some "1024x576"; m_scale := None;
                m_constraint := None; m_megapixels := None |}] |}.

(** A hook of the host that records the first argument of its call on the
    receiver and returns the number 7. *)
Definition recording_hook : method IntegerNumber :=
  λ arguments this,
    (Normal (VNum (7%Z : @number IntegerNumber)),
     <["seen" := default VUndefined (head arguments)]> this).

Definition hooked_type : NodeType IntegerNumber :=
  {| prototype := {| onNodeCreated := Function recording_hook; members := ∅ |} |}.

Definition bare_type : NodeType IntegerNumber :=
  {| prototype := {| onNodeCreated := Data VUndefined; members := ∅ |} |}.

(** A detail whose resize_info is a text. *)
Definition text_sequence_detail : value IntegerNumber :=
  VObj [("constraints", VStr "width"); ("resize_info", VStr "none")].

(** A detail whose original_megapixels is a text. *)
Definition text_megapixels_detail : value IntegerNumber :=
  VObj [("max_megapixels", VNum (2%Z : @number IntegerNumber));
        ("original_megapixels", VStr "8.3");
        ("resize_info", VArr [])].

(** A detail with a null among its entries. *)
Definition null_entry_detail : value IntegerNumber :=
  VObj [("original_megapixels", VNum (8%Z : @number IntegerNumber));
        ("resize_info", VArr [VNull])].

Definition unchanged_entry : MalformedEntry :=
  {| m_original := Some "800x600"; m_new := Some "unchanged";
     m_scale := Some "1.000"; m_constraint := None; m_megapixels := None |}.

Definition resized_entry : MalformedEntry :=
  {| m_original := Some "1920x1080"; m_new := Some "1024x576";
     m_scale := Some "0.533"; m_constraint := None; m_megapixels := None |}.

Definition entry_without_new : MalformedEntry :=
  {| m_original := Some "640x480"; m_new := None;
     m_scale := None; m_constraint := None; m_megapixels := None |}.

(** A payload of the given entries and an original_megapixels of 8. *)
Definition payload_of (entries : list MalformedEntry) : MalformedEvent IntegerNumber :=
  {| m_constraints := Some "width"; m_resize_mode := None; m_enable_width := None;
     m_enable_height := None; m_max_megapixels := None;
     m_original_megapixels := Some (8%Z : @number IntegerNumber);
     m_only_reduce := None; m_batch_size := None;
     m_resize_info := Some entries |}.

(** Node types whose prototype holds a number, or null, under onNodeCreated. *)
Definition numbered_type : NodeType IntegerNumber :=
  {| prototype := {| onNodeCreated := Data (VNum (3%Z : @number IntegerNumber));
                     members := ∅ |} |}.

Definition null_type : NodeType IntegerNumber :=
  {| prototype := {| onNodeCreated := Data VNull; members := ∅ |} |}.

(** * Properties *)

Section Strings.

(** ** Lemmas on strings *)

Lemma append_cons (x : ascii) (a b : string) :
  String x a +:+ b = String x (a +:+ b).
Proof. reflexivity. Qed.

Lemma append_assoc (a b c : string) : (a +:+ b) +:+ c = a +:+ (b +:+ c).
Proof.
  induction a as [|x a IH]; [done |].
  by rewrite !append_cons, IH.
Qed.

Lemma append_empty_r (a : string) : a +:+ EmptyString = a.
Proof.
  induction a as [|x a IH]; [done |].
  by rewrite append_cons, IH.
Qed.

Lemma prefix_append (sub s : string) :
  String.prefix sub s = true ↔ ∃ after, s = sub +:+ after.
Proof.
  revert s. induction sub as [|x sub IH]; intros s.
  - split; [intros _; by exists s | intros _; by destruct s].
  - destruct s as [|y s]; cbn [String.prefix].
    + split; [done | intros [after Heq]; discriminate].
    + destruct (Ascii.ascii_dec x y) as [->|Hne].
      * rewrite IH. split; intros [after Heq]; exists after.
        -- by rewrite append_cons, Heq.
        -- rewrite append_cons in Heq. congruence.
      * split; [done | intros [after Heq]].
        rewrite append_cons in Heq. congruence.
Qed.

Lemma String_includes_contains (s sub : string) :
  String_includes s sub = true ↔ contains s sub.
Proof.
  induction s as [|x s IH]; cbn [String_includes].
  - rewrite orb_false_r, prefix_append. split.
    + intros [after Heq]. by exists EmptyString, after.
    + intros ([|y before] & after & Heq); [by exists after | discriminate].
  - rewrite orb_true_iff, prefix_append, IH. split.
    + intros [[after Heq] | (before & after & Heq)].
      * by exists EmptyString, after.
      * exists (String x before), after. by rewrite append_cons, Heq.
    + intros ([|y before] & after & Heq).
      * left. by exists after.
      * right. exists before, after. rewrite append_cons in Heq. congruence.
Qed.

End Strings.

Section Handlers.
Context `{JSNumber}.

(** ** The handlers on payloads with scalar fields *)

Lemma ToString_scalar (v : value _) :
  scalar v = true → ToString v = Normal (text v).
Proof. by destruct v as [| |[]| | | |]. Qed.

Lemma Get_object (O : value _) (P : string) :
  is_object O = true → Get O P = Normal (field O P).
Proof. by destruct O. Qed.

Lemma substitute_scalar (O : value _) (P : string) :
  is_object O = true → scalar (field O P) = true →
  substitute O P = Normal (text (field O P)).
Proof.
  intros HO HP. unfold substitute.
  rewrite Get_object by done. cbn [cbind]. by apply ToString_scalar.
Qed.

Ltac split_scalar_fields Hs :=
  unfold scalar_fields in Hs; cbn [forallb] in Hs;
  repeat (apply andb_prop in Hs; let H1 := fresh "Hf" in destruct Hs as [H1 Hs]).

Lemma resizeInfoLine_scalar (info : value _) (index : nat) (message : string) :
  scalar_fields ["original"; "new"; "scale"; "constraint"] info = true →
  resizeInfoLine info index message
  = Normal (message +:+ (resize_line_of index info +:+ LF)).
Proof.
  intros Hs. split_scalar_fields Hs.
  unfold resizeInfoLine, resize_line_of.
  rewrite !substitute_scalar, Get_object by done. cbn [cbind].
  destruct (ToBoolean (field info "constraint")); cbn [cbind].
  - by rewrite !append_assoc.
  - by rewrite !append_assoc.
Qed.

Lemma megapixelReducerLine_scalar (info : value _) (index : nat) (message : string) :
  scalar_fields ["original"; "new"; "megapixels"; "scale"] info = true →
  megapixelReducerLine info index message
  = Normal (message +:+ (megapixel_line_of index info +:+ LF)).
Proof.
  intros Hs. split_scalar_fields Hs.
  unfold megapixelReducerLine, megapixel_line_of.
  rewrite !substitute_scalar by done. cbn [cbind].
  by rewrite !append_assoc.
Qed.

(** A [forEach] whose callback appends one line per element appends the
    lines of all elements, numbered from the index it starts at. *)
Lemma forEach_from_lines (callbackfn : value _ → nat → string → completion string)
    (line_of : nat → value _ → string) (ok : value _ → bool)
    (items : list (value _)) :
  (∀ info index message, ok info = true →
     callbackfn info index message = Normal (message +:+ (line_of index info +:+ LF))) →
  forallb ok items = true →
  ∀ index message,
    forEach_from callbackfn items index message
    = Normal (message +:+ lines_text (imap (λ i, line_of (index + i)) items)).
Proof.
  intros Hcb. induction items as [|info items IH]; intros Hok index message.
  - cbn. by rewrite append_empty_r.
  - cbn [forallb] in Hok. apply andb_prop in Hok as [Hinfo Hok].
    cbn [forEach_from imap lines_text]. rewrite Hcb by done. cbn [cbind].
    rewrite IH by done. rewrite Nat.add_0_r, !append_assoc. do 5 f_equal.
    apply imap_ext. intros i x _. cbn. f_equal. lia.
Qed.

Lemma resizeInfoMessage_scalar (data : value _) (items : list (value _)) :
  scalar_fields ["constraints"; "resize_mode"; "enable_width"; "enable_height";
                 "batch_size"] data = true →
  field data "resize_info" = VArr items →
  forallb (scalar_fields ["original"; "new"; "scale"; "constraint"]) items = true →
  resizeInfoMessage data
  = Normal (resize_header_of data +:+ lines_text (imap resize_line_of items)).
Proof.
  intros Hs Hitems Hentries. split_scalar_fields Hs.
  unfold resizeInfoMessage, resize_header_of.
  rewrite !substitute_scalar, Get_object, Hitems by done. cbn [cbind Invoke_forEach].
  rewrite (forEach_from_lines _ resize_line_of _ _ resizeInfoLine_scalar Hentries).
  by rewrite !append_assoc.
Qed.

Lemma megapixelReducerMessage_scalar (data : value _) (n : number)
    (items : list (value _)) :
  scalar_fields ["max_megapixels"; "only_reduce"; "batch_size"] data = true →
  field data "original_megapixels" = VNum n →
  field data "resize_info" = VArr items →
  forallb (scalar_fields ["original"; "new"; "megapixels"; "scale"]) items = true →
  megapixelReducerMessage data
  = Normal (megapixel_header_of data (Number_toFixed n 2)
              +:+ lines_text (imap megapixel_line_of items)).
Proof.
  intros Hs Hnum Hitems Hentries. split_scalar_fields Hs.
  unfold megapixelReducerMessage, megapixel_header_of.
  rewrite !substitute_scalar, !Get_object, Hnum, Hitems by done.
  cbn [cbind Invoke_forEach Invoke_toFixed].
  rewrite (forEach_from_lines _ megapixel_line_of _ _ megapixelReducerLine_scalar Hentries).
  by rewrite !append_assoc.
Qed.

(** On entries whose [new] is a string, the test of [some] is the absence
    of the text [unchanged] in it: the strict inequality adds nothing, a
    string contains itself. *)
Lemma was_resized_string (info : value _) (s : string) :
  is_object info = true → field info "new" = VStr s →
  was_resized info = Normal (negb (String_includes s "unchanged")).
Proof.
  intros HO Hnew. unfold was_resized.
  rewrite !Get_object, Hnew by done. cbn [cbind is_string Invoke_includes].
  destruct (String.eqb_spec s "unchanged") as [->|Hne]; [done |].
  done.
Qed.

Lemma some_of_was_resized (items : list (value _)) (news : list string) :
  Forall2 (λ info s, is_object info = true ∧ field info "new" = VStr s) items news →
  some_of was_resized items
  = Normal (existsb (λ s, negb (String_includes s "unchanged")) news).
Proof.
  induction 1 as [|info s items news [HO Hnew] _ IH]; [done |].
  cbn [some_of existsb]. rewrite (was_resized_string _ s) by done. cbn [cbind].
  destruct (negb (String_includes s "unchanged")); [done |]. by rewrite IH.
Qed.

Lemma Get_detail (data : value _) : Get (CustomEvent data) "detail" = Normal data.
Proof. reflexivity. Qed.

(** Once the message is built and the scan of [some] is known, a handler
    logs the raw detail and then, when the scan succeeded, the message. *)
Lemma resizeInfoHandler_run (data : value _) (message : string)
    (items : list (value _)) (any : bool) (c : console) :
  resizeInfoMessage data = Normal message →
  field data "resize_info" = VArr items →
  is_object data = true →
  some_of was_resized items = Normal any →
  resizeInfoHandler (CustomEvent data) c
  = (Normal VUndefined,
     c ++ [VStr "Aspect Ratio Resizer:"; data]
       :: (if any then [[VStr message]] else [])).
Proof.
  intros Hmsg Hitems HO Hany. unfold resizeInfoHandler, bind, lift, console_log, ret.
  rewrite Get_detail, Hmsg, Get_object, Hitems by done. cbn [Invoke_some]. rewrite Hany.
  destruct any; [by rewrite <- app_assoc | done].
Qed.

Lemma megapixelReducerHandler_run (data : value _) (message : string)
    (items : list (value _)) (any : bool) (c : console) :
  megapixelReducerMessage data = Normal message →
  field data "resize_info" = VArr items →
  is_object data = true →
  some_of was_resized items = Normal any →
  megapixelReducerHandler (CustomEvent data) c
  = (Normal VUndefined,
     c ++ [VStr "Auto Megapixel Reducer:"; data]
       :: (if any then [[VStr message]] else [])).
Proof.
  intros Hmsg Hitems HO Hany.
  unfold megapixelReducerHandler, bind, lift, console_log, ret.
  rewrite Get_detail, Hmsg, Get_object, Hitems by done. cbn [Invoke_some]. rewrite Hany.
  destruct any; [by rewrite <- app_assoc | done].
Qed.

(** ** The handlers on the events of the data model *)

Lemma resize_line_of_entry (index : nat) (e : ResizeInfoEntry) :
  resize_line_of index (entry_value e) = image_line index e.
Proof. by destruct e as [o n s [[|a c]|]]. Qed.

Lemma entry_value_scalar (e : ResizeInfoEntry) :
  scalar_fields ["original"; "new"; "scale"; "constraint"] (entry_value e) = true.
Proof. by destruct e as [o n s [c|]]. Qed.

Lemma forallb_fmap_true {A B} (ok : B → bool) (f : A → B) (l : list A) :
  (∀ x, ok (f x) = true) → forallb ok (f <$> l) = true.
Proof.
  intros Hok. induction l as [|x l IH]; [done |].
  cbn [fmap list_fmap forallb]. rewrite Hok. exact IH.
Qed.

Lemma resizeInfoMessage_event (ev : ResizeInfoEvent _) :
  resizeInfoMessage (resize_detail ev) = Normal (resize_message ev).
Proof.
  rewrite (resizeInfoMessage_scalar _ (entry_value <$> resize_info ev)).
  - unfold resize_message. do 3 f_equal.
    rewrite imap_fmap. apply imap_ext. intros i e _. apply resize_line_of_entry.
  - done.
  - done.
  - apply forallb_fmap_true, entry_value_scalar.
Qed.

Lemma megapixelReducerMessage_event (ev : MegapixelReducerEvent _) :
  megapixelReducerMessage (megapixel_detail ev) = Normal (megapixel_message ev).
Proof.
  rewrite (megapixelReducerMessage_scalar _ (original_megapixels ev)
             (mp_entry_value <$> mp_resize_info ev)).
  - unfold megapixel_message. do 3 f_equal.
    rewrite imap_fmap. by apply imap_ext.
  - done.
  - done.
  - done.
  - by apply forallb_fmap_true.
Qed.

Lemma some_of_entries (es : list ResizeInfoEntry) :
  some_of was_resized (entry_value <$> es) = Normal (any_resized (new <$> es)).
Proof.
  apply some_of_was_resized, Forall2_fmap, Forall_Forall2_diag, Forall_forall.
  by intros e _.
Qed.

Lemma some_of_mp_entries (es : list MegapixelEntry) :
  some_of was_resized (mp_entry_value <$> es) = Normal (any_resized (mp_new <$> es)).
Proof.
  apply some_of_was_resized, Forall2_fmap, Forall_Forall2_diag, Forall_forall.
  by intros e _.
Qed.

(** What [resizeInfoHandler] does on a well-formed event: it returns, having
    logged the raw detail and, when some image was resized, the message. *)
Lemma resizeInfoHandler_event (ev : ResizeInfoEvent _) (c : console) :
  resizeInfoHandler (CustomEvent (resize_detail ev)) c
  = (Normal VUndefined,
     c ++ [VStr "Aspect Ratio Resizer:"; resize_detail ev]
       :: (if any_resized (new <$> resize_info ev)
           then [[VStr (resize_message ev)]] else [])).
Proof.
  apply (resizeInfoHandler_run _ _ (entry_value <$> resize_info ev));
    [apply resizeInfoMessage_event | done | done | apply some_of_entries].
Qed.

Lemma megapixelReducerHandler_event (ev : MegapixelReducerEvent _) (c : console) :
  megapixelReducerHandler (CustomEvent (megapixel_detail ev)) c
  = (Normal VUndefined,
     c ++ [VStr "Auto Megapixel Reducer:"; megapixel_detail ev]
       :: (if any_resized (mp_new <$> mp_resize_info ev)
           then [[VStr (megapixel_message ev)]] else [])).
Proof.
  apply (megapixelReducerHandler_run _ _ (mp_entry_value <$> mp_resize_info ev));
    [apply megapixelReducerMessage_event | done | done | apply some_of_mp_entries].
Qed.

(** ** The handlers on malformed payloads *)

Lemma field_with_field (K P : string) (present : option (value _))
    (rest : list (string * value _)) :
  field (VObj (with_field K present rest)) P
  = if String.eqb K P then default (field (VObj rest) P) present
    else field (VObj rest) P.
Proof.
  destruct present as [v|]; cbn [with_field field own_property default];
    by destruct (String.eqb K P).
Qed.

Lemma malformed_entry_scalar (names : list string) (e : MalformedEntry) :
  scalar_fields names (malformed_entry_value e) = true.
Proof.
  unfold scalar_fields. cbn [is_object malformed_entry_value andb].
  induction names as [|P names IH]; [done |].
  cbn [forallb]. rewrite IH, andb_true_r. unfold malformed_entry_value.
  rewrite !field_with_field.
  destruct e as [[o|] [n|] [s|] [c|] [m|]]; cbn [fmap option_fmap option_map default];
    repeat case_match; done.
Qed.

Lemma malformed_resize_line_of (index : nat) (e : MalformedEntry) :
  resize_line_of index (malformed_entry_value e) = malformed_resize_line index e.
Proof.
  unfold resize_line_of, malformed_resize_line, malformed_entry_value.
  rewrite !field_with_field.
  by destruct e as [[o|] [n|] [s|] [[|a c]|] [m|]].
Qed.

Lemma malformed_megapixel_line_of (index : nat) (e : MalformedEntry) :
  megapixel_line_of index (malformed_entry_value e)
  = malformed_megapixel_line index e.
Proof.
  unfold megapixel_line_of, malformed_megapixel_line, malformed_entry_value.
  rewrite !field_with_field.
  by destruct e as [[o|] [n|] [s|] [c|] [m|]].
Qed.

Lemma malformed_entry_new (e : MalformedEntry) (s : string) :
  m_new e = Some s → field (malformed_entry_value e) "new" = VStr s.
Proof.
  intros Hnew. unfold malformed_entry_value. rewrite !field_with_field.
  rewrite Hnew. by destruct (m_original e).
Qed.

Lemma some_of_malformed_entries (entries : list MalformedEntry) :
  Forall (λ e, is_Some (m_new e)) entries →
  some_of was_resized (malformed_entry_value <$> entries)
  = Normal (any_resized (omap m_new entries)).
Proof.
  intros Hnew. apply some_of_was_resized.
  induction Hnew as [|e entries [s Hs] _ IH]; [constructor |].
  cbn [fmap list_fmap omap list_omap]. rewrite Hs.
  constructor; [| exact IH]. split; [done | by apply malformed_entry_new].
Qed.

Lemma malformed_resize_info (ev : MalformedEvent _) (entries : list MalformedEntry) :
  m_resize_info ev = Some entries →
  field (malformed_detail ev) "resize_info" = VArr (malformed_entry_value <$> entries).
Proof.
  intros Hinfo. unfold malformed_detail. rewrite !field_with_field.
  by rewrite Hinfo.
Qed.

Lemma malformed_resizeInfoMessage (ev : MalformedEvent _)
    (entries : list MalformedEntry) :
  m_resize_info ev = Some entries →
  resizeInfoMessage (malformed_detail ev)
  = Normal (malformed_resize_message ev entries).
Proof.
  intros Hinfo.
  rewrite (resizeInfoMessage_scalar _ (malformed_entry_value <$> entries)).
  - unfold malformed_resize_message, resize_header_of, malformed_detail.
    rewrite !field_with_field, imap_fmap.
    rewrite (imap_ext _ malformed_resize_line)
      by (intros; apply malformed_resize_line_of).
    rewrite !append_assoc.
    by destruct (m_constraints ev), (m_resize_mode ev), (m_enable_width ev),
      (m_enable_height ev), (m_batch_size ev).
  - unfold scalar_fields, malformed_detail. cbn [is_object forallb andb].
    rewrite !field_with_field.
    by destruct (m_constraints ev), (m_resize_mode ev), (m_enable_width ev),
      (m_enable_height ev), (m_batch_size ev).
  - by apply malformed_resize_info.
  - apply forallb_fmap_true, malformed_entry_scalar.
Qed.

Lemma malformed_megapixelReducerMessage (ev : MalformedEvent _) (n : number)
    (entries : list MalformedEntry) :
  m_original_megapixels ev = Some n →
  m_resize_info ev = Some entries →
  megapixelReducerMessage (malformed_detail ev)
  = Normal (malformed_megapixel_message ev n entries).
Proof.
  intros Hnum Hinfo.
  rewrite (megapixelReducerMessage_scalar _ n (malformed_entry_value <$> entries)).
  - unfold malformed_megapixel_message, megapixel_header_of, malformed_detail.
    rewrite !field_with_field, imap_fmap.
    rewrite (imap_ext _ malformed_megapixel_line)
      by (intros; apply malformed_megapixel_line_of).
    rewrite !append_assoc.
    by destruct (m_max_megapixels ev), (m_only_reduce ev), (m_batch_size ev).
  - unfold scalar_fields, malformed_detail. cbn [is_object forallb andb].
    rewrite !field_with_field.
    by destruct (m_max_megapixels ev), (m_only_reduce ev), (m_batch_size ev).
  - unfold malformed_detail. rewrite !field_with_field. by rewrite Hnum.
  - by apply malformed_resize_info.
  - apply forallb_fmap_true, malformed_entry_scalar.
Qed.

End Handlers.

(** ** The lines of a message *)

Section Lines.

Lemma single_line_app (a b : string) :
  single_line (a +:+ b) = single_line a && single_line b.
Proof.
  induction a as [|x a IH]; [done |].
  rewrite append_cons. cbn [single_line]. by rewrite IH, andb_assoc.
Qed.

Lemma split_lines_cons (s : string) : ∃ line rest, split_lines s = line :: rest.
Proof.
  induction s as [|a s (line & rest & IH)]; [by eexists _, _ |].
  cbn [split_lines]. rewrite IH. destruct (Ascii.eqb a "010"); by eexists _, _.
Qed.

Lemma split_lines_line (a t : string) :
  single_line a = true → split_lines (a +:+ LF +:+ t) = a :: split_lines t.
Proof.
  induction a as [|x a IH]; intros Ha.
  - change (EmptyString +:+ LF +:+ t) with (String "010" t). cbn [split_lines].
    by destruct (split_lines_cons t) as (line & rest & ->).
  - cbn [single_line] in Ha. apply andb_prop in Ha as [Hx Ha].
    rewrite append_cons. cbn [split_lines]. rewrite IH by done.
    by destruct (Ascii.eqb x "010").
Qed.

Lemma split_lines_blank (t : string) :
  split_lines (LF +:+ t) = EmptyString :: split_lines t.
Proof. exact (split_lines_line EmptyString t eq_refl). Qed.

Lemma split_lines_labelled (label s t : string) :
  single_line label = true → single_line s = true →
  split_lines (label +:+ s +:+ LF +:+ t) = (label +:+ s) :: split_lines t.
Proof.
  intros Hlabel Hs. rewrite <- (append_assoc label s).
  apply split_lines_line. by rewrite single_line_app, Hlabel, Hs.
Qed.

Lemma split_lines_text (lines : list string) :
  forallb single_line lines = true →
  split_lines (lines_text lines) = lines ++ [EmptyString].
Proof.
  induction lines as [|line lines IH]; intros Hlines; [done |].
  cbn [forallb] in Hlines. apply andb_prop in Hlines as [Hline Hlines].
  cbn [lines_text app]. rewrite split_lines_line by done. by rewrite IH.
Qed.

Lemma single_line_bool_text (b : bool) : single_line (bool_text b) = true.
Proof. by destruct b. Qed.

Lemma single_line_pretty_N_go (x : N) (s : string) :
  single_line s = true → single_line (pretty_N_go x s) = true.
Proof.
  revert s. induction (N.lt_wf_0 x) as [x _ IH]; intros s Hs.
  destruct (decide (0 < x)%N) as [Hpos|Hzero].
  - rewrite pretty_N_go_step by done. apply IH; [by apply N.div_lt |].
    cbn [single_line]. rewrite Hs, andb_true_r.
    unfold pretty_N_char. by repeat case_match.
  - assert (x = 0%N) as -> by lia. by rewrite pretty_N_go_0.
Qed.

Lemma single_line_pretty (n : nat) : single_line (pretty n) = true.
Proof.
  unfold pretty, pretty_nat, pretty, pretty_N.
  case_decide; [done | by apply single_line_pretty_N_go].
Qed.

Lemma is_image_line_Image (rest : string) : is_image_line ("Image " +:+ rest) = true.
Proof. apply prefix_append. by exists rest. Qed.

Lemma forallb_imap {A B} (ok : B → bool) (f : nat → A → B) (l : list A) :
  (∀ i x, In x l → ok (f i x) = true) → forallb ok (imap f l) = true.
Proof.
  revert f. induction l as [|x l IH]; intros f Hok; [done |].
  cbn [imap forallb]. rewrite Hok by by left.
  apply IH. intros i y Hy. apply Hok. by right.
Qed.

Lemma filter_image_lines (lines : list string) :
  forallb is_image_line lines = true →
  List.filter is_image_line (lines ++ [EmptyString]) = lines.
Proof.
  induction lines as [|line lines IH]; intros Hlines; [done |].
  cbn [forallb] in Hlines. apply andb_prop in Hlines as [Hline Hlines].
  cbn [app List.filter]. by rewrite Hline, IH.
Qed.

End Lines.

(** * The claims about the listeners *)

Section Listeners.
Context `{JSNumber}.

Lemma handle_event (e : Event _) (c : console) :
  handle e c
  = (Normal VUndefined,
     c ++ raw_log e
       :: (if any_resized (new_fields e) then [[VStr (formatted e)]] else [])).
Proof.
  destruct e as [ev|ev];
    [apply resizeInfoHandler_event | apply megapixelReducerHandler_event].
Qed.

Lemma any_resized_true (news : list string) :
  any_resized news = true ↔ ∃ s, s ∈ news ∧ ¬ contains s "unchanged".
Proof.
  unfold any_resized. rewrite existsb_exists. split.
  - intros (s & Hin & Hs). exists s. split; [by apply list_elem_of_In |].
    rewrite <- String_includes_contains. by destruct (String_includes s "unchanged").
  - intros (s & Hin & Hs). exists s. split; [by apply list_elem_of_In |].
    rewrite <- String_includes_contains in Hs.
    by destruct (String_includes s "unchanged").
Qed.

(** C1, as the code has it: for every ResizeInfoEvent and every
    MegapixelReducerEvent in which the [new] field of at least one entry
    does not contain the text [unchanged], the handler returns after two
    calls of console.log: the raw detail, then the full formatted message. *)
Theorem resized_batch_logs_message (e : Event _) (c : console) :
  (∃ s, s ∈ new_fields e ∧ ¬ contains s "unchanged") →
  handle e c = (Normal VUndefined, c ++ [raw_log e; [VStr (formatted e)]]).
Proof.
  intros Hsome. apply any_resized_true in Hsome.
  by rewrite handle_event, Hsome.
Qed.

(** C3: for every ResizeInfoEvent and every MegapixelReducerEvent in which
    the [new] field of every entry equals [unchanged], the handler returns
    after the single console.log of the raw detail; the formatted message
    is not logged. *)
Theorem unchanged_batch_logs_raw_only (e : Event _) (c : console) :
  (∀ s, s ∈ new_fields e → s = "unchanged") →
  handle e c = (Normal VUndefined, c ++ [raw_log e]).
Proof.
  intros Hall. rewrite handle_event.
  destruct (any_resized (new_fields e)) eqn:Hany; [| done].
  apply any_resized_true in Hany as (s & Hin & Hs).
  destruct Hs. rewrite (Hall s Hin). by exists EmptyString, EmptyString.
Qed.

Lemma contains_middle (before s after : string) :
  contains (before +:+ s +:+ after) s.
Proof. by exists before, after. Qed.

Lemma single_line_image_line (i : nat) (e : ResizeInfoEntry) :
  single_line_entry e = true → single_line (image_line i e) = true.
Proof.
  unfold single_line_entry, image_line, constraint_suffix. intros He.
  repeat (apply andb_prop in He as [He ?]).
  rewrite !single_line_app, single_line_pretty.
  destruct (constraint e) as [c|]; cbn [from_option] in *.
  - destruct (String.eqb c EmptyString); rewrite ?single_line_app;
      by repeat (apply andb_true_intro; split).
  - by repeat (apply andb_true_intro; split).
Qed.

(** Split at its line feeds, the message of a single-line event is the six
    lines of the header, an empty line, the image lines and the empty text
    after the last line feed. *)
Lemma split_lines_resize_message (ev : ResizeInfoEvent _) :
  single_line_event ev = true →
  split_lines (resize_message ev)
  = ["Aspect Ratio Resizer Results:";
     "Constraints: " +:+ constraints ev;
     "Resize Mode: " +:+ resize_mode ev;
     "Width Enabled: " +:+ bool_text (enable_width ev);
     "Height Enabled: " +:+ bool_text (enable_height ev);
     "Batch Size: " +:+ Number_toString (batch_size ev);
     EmptyString]
    ++ imap image_line (resize_info ev) ++ [EmptyString].
Proof.
  unfold single_line_event, resize_message, resize_header. intros Hev.
  apply andb_prop in Hev as [Hev Hentries].
  apply andb_prop in Hev as [Hev Hbatch].
  apply andb_prop in Hev as [Hconstraints Hmode].
  rewrite !append_assoc.
  rewrite (split_lines_line "Aspect Ratio Resizer Results:") by done.
  rewrite !split_lines_labelled by (done || apply single_line_bool_text).
  rewrite split_lines_blank.
  rewrite split_lines_text; [done |].
  apply forallb_imap. intros i e He. apply single_line_image_line.
  by apply (proj1 (forallb_forall _ _) Hentries).
Qed.

(** C2: for every well-formed ResizeInfoEvent with N entries, the message
    [resizeInfoHandler] builds is the header followed by exactly N lines,
    each closed by a line feed; the i-th of them starts with [Image i+1: ]
    and carries the [original] of the i-th entry, the arrow and its [new],
    verbatim and in this order.  When no text of the event holds a line
    feed, these N lines are the lines of the message that start with
    [Image ]. *)
Theorem message_has_one_line_per_entry (ev : ResizeInfoEvent _) :
  ∃ lines,
    resizeInfoMessage (resize_detail ev)
      = Normal (resize_header ev +:+ lines_text lines)
    ∧ length lines = length (resize_info ev)
    ∧ (∀ i e, resize_info ev !! i = Some e →
        ∃ line rest,
          lines !! i = Some line
          ∧ line = "Image " +:+ pretty (i + 1) +:+ ": " +:+ original e
                     +:+ " → " +:+ new e +:+ rest
          ∧ contains line (original e)
          ∧ contains line "→"
          ∧ contains line (new e))
    ∧ (single_line_event ev = true →
       List.filter is_image_line
         (split_lines (resize_header ev +:+ lines_text lines)) = lines).
Proof.
  exists (imap image_line (resize_info ev)). split; [| split; [| split]].
  - apply resizeInfoMessage_event.
  - apply length_imap.
  - intros i e Hi.
    exists (image_line i e),
      (" (scale: " +:+ scale e +:+ ")" +:+ constraint_suffix (constraint e)).
    split; [by rewrite list_lookup_imap, Hi |]. split; [done |].
    unfold image_line. split; [| split].
    + rewrite <- (append_assoc "Image "), <- (append_assoc _ ": ").
      apply contains_middle.
    + exists ("Image " +:+ pretty (i + 1) +:+ ": " +:+ original e +:+ " "),
        (" " +:+ new e +:+ " (scale: " +:+ scale e +:+ ")"
           +:+ constraint_suffix (constraint e)).
      by rewrite !append_assoc.
    + exists ("Image " +:+ pretty (i + 1) +:+ ": " +:+ original e +:+ " → "),
        (" (scale: " +:+ scale e +:+ ")" +:+ constraint_suffix (constraint e)).
      by rewrite !append_assoc.
  - intros Hev. fold (resize_message ev).
    rewrite split_lines_resize_message by done.
    cbn [app List.filter]. apply filter_image_lines, forallb_imap.
    intros i e _. apply is_image_line_Image.
Qed.

(** C7, as the code has it: for every entry of a ResizeInfoEvent the image
    line shows original → new and the scale factor, and it additionally
    shows the constraint, appended in square brackets, exactly when the
    [constraint] field of the entry is present and not the empty string. *)
Theorem line_shows_nonempty_constraint (ev : ResizeInfoEvent _) (i : nat)
    (e : ResizeInfoEntry) :
  resize_info ev !! i = Some e →
  let shown_dimensions :=
    "Image " +:+ pretty (i + 1) +:+ ": " +:+ original e +:+ " → " +:+ new e
      +:+ " (scale: " +:+ scale e +:+ ")" in
  ∃ lines,
    resizeInfoMessage (resize_detail ev)
      = Normal (resize_header ev +:+ lines_text lines)
    ∧ length lines = length (resize_info ev)
    ∧ lines !! i
      = Some match constraint e with
             | Some c =>
                 if decide (c = EmptyString) then shown_dimensions
                 else shown_dimensions +:+ " [" +:+ c +:+ "]"
             | None => shown_dimensions
             end.
Proof.
  intros Hi shown_dimensions. exists (imap image_line (resize_info ev)).
  split; [apply resizeInfoMessage_event |]. split; [apply length_imap |].
  rewrite list_lookup_imap, Hi. cbn [fmap option_fmap option_map]. f_equal.
  unfold image_line, shown_dimensions, constraint_suffix.
  destruct (constraint e) as [c|].
  - destruct (decide (c = EmptyString)) as [->|Hne].
    + done.
    + apply String.eqb_neq in Hne. rewrite Hne. by rewrite !append_assoc.
  - done.
Qed.

(** C6, as the code has it: a payload from which fields are missing is
    handled without an error, each missing field printed as the text
    [undefined], provided resize_info is present and each of its entries
    has its [new] string, and, for the megapixel handler, provided
    original_megapixels is present: the handlers read these through a
    method call, not through a template. *)
Theorem missing_fields_print_undefined (ev : MalformedEvent _)
    (entries : list MalformedEntry) (c : console) :
  m_resize_info ev = Some entries →
  Forall (λ e, is_Some (m_new e)) entries →
  resizeInfoHandler (CustomEvent (malformed_detail ev)) c
    = (Normal VUndefined,
       c ++ [VStr "Aspect Ratio Resizer:"; malformed_detail ev]
         :: (if any_resized (omap m_new entries)
             then [[VStr (malformed_resize_message ev entries)]] else []))
  ∧ ∀ n, m_original_megapixels ev = Some n →
      megapixelReducerHandler (CustomEvent (malformed_detail ev)) c
      = (Normal VUndefined,
         c ++ [VStr "Auto Megapixel Reducer:"; malformed_detail ev]
           :: (if any_resized (omap m_new entries)
               then [[VStr (malformed_megapixel_message ev n entries)]] else [])).
Proof.
  intros Hinfo Hnew. split; [| intros n Hn].
  - apply (resizeInfoHandler_run _ _ (malformed_entry_value <$> entries)).
    + by apply malformed_resizeInfoMessage.
    + by apply malformed_resize_info.
    + done.
    + by apply some_of_malformed_entries.
  - apply (megapixelReducerHandler_run _ _ (malformed_entry_value <$> entries)).
    + by apply malformed_megapixelReducerMessage.
    + by apply malformed_resize_info.
    + done.
    + by apply some_of_malformed_entries.
Qed.

End Listeners.

(** * The claims about the node decorator *)

Section Decorator.
Context `{JSNumber}.

Lemma onNodeCreated_AspectRatioResizer_runs (onNodeCreated : member _) :
  runs_then_decorates "Aspect Ratio Resizer" "#2a4d3a" "#335544" onNodeCreated
    (onNodeCreated_AspectRatioResizer onNodeCreated).
Proof.
  intros arguments this. unfold onNodeCreated_AspectRatioResizer, bind.
  by destruct (optional_apply onNodeCreated arguments this) as [[result|e] this'].
Qed.

Lemma onNodeCreated_AutoMegapixelReducer_runs (onNodeCreated : member _) :
  runs_then_decorates "Auto Megapixel Reducer" "#4d2a3a" "#553344" onNodeCreated
    (onNodeCreated_AutoMegapixelReducer onNodeCreated).
Proof.
  intros arguments this. unfold onNodeCreated_AutoMegapixelReducer, bind.
  by destruct (optional_apply onNodeCreated arguments this) as [[result|e] this'].
Qed.

(** On the two node types, [beforeRegisterNodeDef] installs the wrapper of
    the hook it found, with the style of the type. *)
Lemma beforeRegisterNodeDef_styled (nodeType : NodeType _) (nodeData : NodeData _)
    (type_name title color bgcolor : string) :
  (type_name, (title, color, bgcolor)) ∈ styles →
  name nodeData = VStr type_name →
  ∃ wrapped,
    onNodeCreated (prototype (beforeRegisterNodeDef nodeType nodeData))
      = Function wrapped
    ∧ runs_then_decorates title color bgcolor
        (onNodeCreated (prototype nodeType)) wrapped.
Proof.
  intros Hstyle Hname. unfold beforeRegisterNodeDef. rewrite Hname.
  unfold styles in Hstyle. rewrite !elem_of_cons, elem_of_nil in Hstyle.
  destruct Hstyle as [Heq | [Heq | []]]; simplify_eq; cbn.
  - eexists. split; [done |]. apply onNodeCreated_AspectRatioResizer_runs.
  - eexists. split; [done |]. apply onNodeCreated_AutoMegapixelReducer_runs.
Qed.

Lemma decoration_decorate (title color bgcolor : string) (this : gmap string (value _)) :
  decoration (decorate title color bgcolor this)
  = (Some (VStr title), Some (VStr color), Some (VStr bgcolor)).
Proof.
  unfold decoration, decorate. by simplify_map_eq.
Qed.

(** C4: on AspectRatioResizer and on AutoMegapixelReducer, every invocation
    of the wrapped onNodeCreated that returns leaves the node with the title,
    colour and background colour of its type, and any further invocation on
    that node yields the same three values again. *)
Theorem decoration_is_idempotent (nodeType : NodeType _) (nodeData : NodeData _)
    (type_name title color bgcolor : string) :
  (type_name, (title, color, bgcolor)) ∈ styles →
  name nodeData = VStr type_name →
  ∃ wrapped,
    onNodeCreated (prototype (beforeRegisterNodeDef nodeType nodeData))
      = Function wrapped
    ∧ ∀ arguments this result this',
        wrapped arguments this = (Normal result, this') →
        decoration this' = (Some (VStr title), Some (VStr color), Some (VStr bgcolor))
        ∧ ∀ arguments2 result2 this'',
            wrapped arguments2 this' = (Normal result2, this'') →
            decoration this'' = decoration this'.
Proof.
  intros Hstyle Hname.
  destruct (beforeRegisterNodeDef_styled nodeType nodeData _ _ _ _ Hstyle Hname)
    as (wrapped & Hinstalled & Hruns).
  exists wrapped. split; [done |].
  assert (∀ arguments this result this',
    wrapped arguments this = (Normal result, this') →
    decoration this' = (Some (VStr title), Some (VStr color), Some (VStr bgcolor)))
    as Hdecorated.
  { intros arguments this result this'. rewrite Hruns.
    destruct (optional_apply _ arguments this) as [[r|e] this0]; [| done].
    intros [= _ <-]. apply decoration_decorate. }
  intros arguments this result this' Hrun. split; [by eapply Hdecorated |].
  intros arguments2 result2 this'' Hrun2.
  by rewrite (Hdecorated _ _ _ _ Hrun), (Hdecorated _ _ _ _ Hrun2).
Qed.

(** C5: on both node types, when the prototype already has an onNodeCreated
    function, the wrapped hook first calls it with the receiver and the
    arguments of its own call, and returns what it returned, unchanged; the
    title and colours are written on the receiver as the hook left it. *)
Theorem wrapper_returns_hook_result (nodeType : NodeType _) (nodeData : NodeData _)
    (type_name title color bgcolor : string) (hook : method _) :
  (type_name, (title, color, bgcolor)) ∈ styles →
  name nodeData = VStr type_name →
  onNodeCreated (prototype nodeType) = Function hook →
  ∃ wrapped,
    onNodeCreated (prototype (beforeRegisterNodeDef nodeType nodeData))
      = Function wrapped
    ∧ ∀ arguments this,
        wrapped arguments this
        = match hook arguments this with
          | (Normal result, this') =>
              (Normal result, decorate title color bgcolor this')
          | (Throw e, this') => (Throw e, this')
          end.
Proof.
  intros Hstyle Hname Hhook.
  destruct (beforeRegisterNodeDef_styled nodeType nodeData _ _ _ _ Hstyle Hname)
    as (wrapped & Hinstalled & Hruns).
  exists wrapped. split; [done |].
  intros arguments this. rewrite Hruns, Hhook. done.
Qed.

(** C9: when the prototype has no onNodeCreated (the property reads as
    undefined) at the time a matching node type is wrapped, the wrapped hook
    runs without an error, writes the title and the two colours, and returns
    undefined. *)
Theorem wrapper_without_hook (nodeType : NodeType _) (nodeData : NodeData _)
    (type_name title color bgcolor : string) :
  (type_name, (title, color, bgcolor)) ∈ styles →
  name nodeData = VStr type_name →
  onNodeCreated (prototype nodeType) = Data VUndefined →
  ∃ wrapped,
    onNodeCreated (prototype (beforeRegisterNodeDef nodeType nodeData))
      = Function wrapped
    ∧ ∀ arguments this,
        wrapped arguments this
          = (Normal VUndefined, decorate title color bgcolor this)
        ∧ decoration (decorate title color bgcolor this)
          = (Some (VStr title), Some (VStr color), Some (VStr bgcolor)).
Proof.
  intros Hstyle Hname Habsent.
  destruct (beforeRegisterNodeDef_styled nodeType nodeData _ _ _ _ Hstyle Hname)
    as (wrapped & Hinstalled & Hruns).
  exists wrapped. split; [done |].
  intros arguments this. split; [| apply decoration_decorate].
  by rewrite Hruns, Habsent.
Qed.

(** C10: for a node definition whose name is neither AspectRatioResizer nor
    AutoMegapixelReducer, [beforeRegisterNodeDef] leaves the node type as it
    was, its onNodeCreated included. *)
Theorem other_node_types_untouched (nodeType : NodeType _) (nodeData : NodeData _) :
  name nodeData ≠ VStr "AspectRatioResizer" →
  name nodeData ≠ VStr "AutoMegapixelReducer" →
  beforeRegisterNodeDef nodeType nodeData = nodeType.
Proof.
  intros Hne1 Hne2. unfold beforeRegisterNodeDef.
  assert (∀ lit, name nodeData ≠ VStr lit → is_string (name nodeData) lit = false)
    as Hfalse.
  { intros lit Hne. destruct (name nodeData) as [| | | |s| |]; try done.
    cbn. apply String.eqb_neq. congruence. }
  by rewrite !Hfalse.
Qed.

End Decorator.

(** * Runs on concrete events and node types *)

Lemma not_contains (s sub : string) :
  String_includes s sub = false → ¬ contains s sub.
Proof. intros Hfalse Hc. apply String_includes_contains in Hc. congruence. Qed.

(** C1 as stated fails: the only entry of [annotated_event] has a [new]
    string different from [unchanged], and the handler logs the raw detail
    only. *)
Lemma annotated_unchanged_not_logged :
  (∃ s, s ∈ new_fields (ResizeInfo annotated_event) ∧ s ≠ "unchanged")
  ∧ handle (ResizeInfo annotated_event) []
    = (Normal VUndefined, [raw_log (ResizeInfo annotated_event)]).
Proof.
  split; [| by vm_compute].
  exists "800x600 (unchanged)". split; [by left | done].
Qed.

Lemma resized_batch_logs_message_witness :
  (∃ s, s ∈ new_fields (ResizeInfo example_event) ∧ ¬ contains s "unchanged")
  ∧ handle (MegapixelReducer reduced_event) []
    = (Normal VUndefined,
       [raw_log (MegapixelReducer reduced_event);
        [VStr (formatted (MegapixelReducer reduced_event))]])
  ∧ handle (ResizeInfo example_event) []
    = (Normal VUndefined,
       [raw_log (ResizeInfo example_event);
        [VStr (formatted (ResizeInfo example_event))]]).
Proof.
  assert (∃ s, s ∈ new_fields (ResizeInfo example_event) ∧ ¬ contains s "unchanged")
    as Hresized.
  { exists "1024x576". split; [by left | by apply not_contains]. }
  split; [exact Hresized |]. split.
  - apply (resized_batch_logs_message (MegapixelReducer reduced_event) []).
    exists "1884x1060". split; [by left | by apply not_contains].
  - exact (resized_batch_logs_message (ResizeInfo example_event) [] Hresized).
Defined.

Lemma unchanged_batch_logs_raw_only_witness :
  (∀ s, s ∈ new_fields (ResizeInfo untouched_event) → s = "unchanged")
  ∧ handle (ResizeInfo untouched_event) []
    = (Normal VUndefined, [raw_log (ResizeInfo untouched_event)]).
Proof.
  assert (∀ s, s ∈ new_fields (ResizeInfo untouched_event) → s = "unchanged")
    as Hall.
  { intros s Hin. cbn in Hin. rewrite !elem_of_cons, elem_of_nil in Hin.
    by destruct Hin as [-> | [-> | []]]. }
  split; [exact Hall |].
  exact (unchanged_batch_logs_raw_only (ResizeInfo untouched_event) [] Hall).
Defined.

Lemma message_has_one_line_per_entry_witness :
  ∃ lines,
    resizeInfoMessage (resize_detail example_event)
      = Normal (resize_header example_event +:+ lines_text lines)
    ∧ length lines = 1
    ∧ List.filter is_image_line
        (split_lines (resize_header example_event +:+ lines_text lines)) = lines.
Proof.
  destruct (message_has_one_line_per_entry example_event)
    as (lines & Hmessage & Hlength & Hlines & Hfilter).
  exists lines. split; [exact Hmessage |]. split; [exact Hlength |].
  exact (Hfilter eq_refl).
Defined.

(** C7 as stated fails: the entry of [empty_constraint_event] has its
    [constraint] field, and the line shows no square brackets. *)
Lemma empty_constraint_not_shown :
  (constraint <$> resize_info empty_constraint_event) = [Some EmptyString]
  ∧ resizeInfoMessage (resize_detail empty_constraint_event)
    = Normal (resize_header empty_constraint_event
                +:+ lines_text ["Image 1: 800x600 → 400x300 (scale: 0.500)"])
  ∧ ¬ contains "Image 1: 800x600 → 400x300 (scale: 0.500)" "[".
Proof.
  split; [done |]. split; [by vm_compute | by apply not_contains].
Qed.

Lemma line_shows_nonempty_constraint_witness :
  ∃ lines,
    resizeInfoMessage (resize_detail width_limited_event)
      = Normal (resize_header width_limited_event +:+ lines_text lines)
    ∧ length lines = 1
    ∧ lines !! 0 = Some "Image 1: 800x600 → 400x300 (scale: 0.500) [width]".
Proof.
  exact (line_shows_nonempty_constraint width_limited_event 0
           {| original := "800x600"; new := "400x300"; scale := "0.500";
              constraint := Some "width" |} eq_refl).
Defined.

(** C6 as stated fails: without resize_info the first handler throws before
    it logs anything, and so does the second without original_megapixels. *)
Lemma missing_sequence_or_number_throws :
  resizeInfoHandler (CustomEvent (malformed_detail empty_payload)) []
    = (Throw TypeError, [])
  ∧ megapixelReducerHandler (CustomEvent (malformed_detail no_megapixels_payload)) []
    = (Throw TypeError, []).
Proof. split; by vm_compute. Qed.

Lemma missing_fields_print_undefined_witness :
  resizeInfoHandler (CustomEvent (malformed_detail entries_only_payload)) []
    = (Normal VUndefined,
       [[VStr "Aspect Ratio Resizer:"; malformed_detail entries_only_payload];
        [VStr ("Aspect Ratio Resizer Results:" +:+ LF
                 +:+ "Constraints: undefined" +:+ LF
                 +:+ "Resize Mode: undefined" +:+ LF
                 +:+ "Width Enabled: undefined" +:+ LF
                 +:+ "Height Enabled: undefined" +:+ LF
                 +:+ "Batch Size: undefined" +:+ LF +:+ LF
                 +:+ "Image 1: undefined → 1024x576 (scale: undefined)" +:+ LF)]])
  ∧ megapixelReducerHandler (CustomEvent (malformed_detail entries_only_payload)) []
    = (Normal VUndefined,
       [[VStr "Auto Megapixel Reducer:"; malformed_detail entries_only_payload];
        [VStr ("Auto Megapixel Reducer Results:" +:+ LF
                 +:+ "Target: undefinedMP" +:+ LF
                 +:+ "Original: 8.00MP" +:+ LF
                 +:+ "Only Reduce Mode: undefined" +:+ LF
                 +:+ "Batch Size: undefined" +:+ LF +:+ LF
                 +:+ "Image 1: undefined → 1024x576 (undefined) [scale: undefined]"
                 +:+ LF)]]).
Proof.
  pose proof (missing_fields_print_undefined entries_only_payload
    [{| m_original := None; m_new := Some "1024x576"; m_scale := None;
        m_constraint := None; m_megapixels := None |}] [] eq_refl) as Hrun.
  destruct Hrun as [Hresize Hmegapixel].
  { constructor; [by eexists | constructor]. }
  split; [exact Hresize | exact (Hmegapixel _ eq_refl)].
Defined.

(** C8: on the event of the example, [resizeInfoHandler] logs a message one
    of whose lines is [Image 1: 1920x1080 → 1024x576 (scale: 0.533)]. *)
Theorem example_event_line :
  ∃ message,
    resizeInfoMessage (resize_detail example_event) = Normal message
    ∧ handle (ResizeInfo example_event) []
      = (Normal VUndefined, [raw_log (ResizeInfo example_event); [VStr message]])
    ∧ "Image 1: 1920x1080 → 1024x576 (scale: 0.533)" ∈ split_lines message.
Proof.
  eexists. split; [by vm_compute |]. split; [by vm_compute |].
  apply list_elem_of_lookup. by exists 7.
Qed.

Lemma decoration_is_idempotent_witness :
  ∃ wrapped,
    onNodeCreated (prototype (beforeRegisterNodeDef hooked_type
                                {| name := VStr "AspectRatioResizer" |}))
      = Function wrapped
    ∧ ∀ arguments this result this',
        wrapped arguments this = (Normal result, this') →
        decoration this'
          = (Some (VStr "Aspect Ratio Resizer"), Some (VStr "#2a4d3a"),
             Some (VStr "#335544"))
        ∧ ∀ arguments2 result2 this'',
            wrapped arguments2 this' = (Normal result2, this'') →
            decoration this'' = decoration this'.
Proof.
  apply (decoration_is_idempotent hooked_type {| name := VStr "AspectRatioResizer" |}
           "AspectRatioResizer" "Aspect Ratio Resizer" "#2a4d3a" "#335544").
  - unfold styles. left.
  - reflexivity.
Defined.

Lemma wrapper_returns_hook_result_witness :
  ∃ wrapped,
    onNodeCreated (prototype (beforeRegisterNodeDef hooked_type
                                {| name := VStr "AutoMegapixelReducer" |}))
      = Function wrapped
    ∧ ∀ arguments this,
        wrapped arguments this
        = (Normal (VNum (7%Z : @number IntegerNumber)),
           decorate "Auto Megapixel Reducer" "#4d2a3a" "#553344"
             (<["seen" := default VUndefined (head arguments)]> this)).
Proof.
  exact (wrapper_returns_hook_result hooked_type
           {| name := VStr "AutoMegapixelReducer" |}
           "AutoMegapixelReducer" "Auto Megapixel Reducer" "#4d2a3a" "#553344"
           recording_hook
           (list_elem_of_further _ _ _ (list_elem_of_here _ _)) eq_refl eq_refl).
Defined.

Lemma wrapper_without_hook_witness :
  ∃ wrapped,
    onNodeCreated (prototype (beforeRegisterNodeDef bare_type
                                {| name := VStr "AspectRatioResizer" |}))
      = Function wrapped
    ∧ ∀ arguments this,
        wrapped arguments this
          = (Normal VUndefined,
             decorate "Aspect Ratio Resizer" "#2a4d3a" "#335544" this)
        ∧ decoration (decorate "Aspect Ratio Resizer" "#2a4d3a" "#335544" this)
          = (Some (VStr "Aspect Ratio Resizer"), Some (VStr "#2a4d3a"),
             Some (VStr "#335544")).
Proof.
  exact (wrapper_without_hook bare_type {| name := VStr "AspectRatioResizer" |}
           "AspectRatioResizer" "Aspect Ratio Resizer" "#2a4d3a" "#335544"
           (list_elem_of_here _ _) eq_refl eq_refl).
Defined.

Lemma other_node_types_untouched_witness :
  beforeRegisterNodeDef hooked_type {| name := VStr "KSampler" |} = hooked_type.
Proof.
  apply (other_node_types_untouched hooked_type {| name := VStr "KSampler" |});
    discriminate.
Defined.

(** * Beyond the claims: failures of the listeners on arbitrary payloads *)

Section Failures.
Context `{JSNumber}.

Lemma TypeError_only_Normal {A} (a : A) : TypeError_only (Normal a).
Proof. intros e. discriminate. Qed.

Lemma TypeError_only_Throw {A} : TypeError_only (@Throw A TypeError).
Proof. by intros e [= <-]. Qed.

Lemma TypeError_only_cbind {A B} (c : completion A) (k : A → completion B) :
  TypeError_only c → (∀ a, TypeError_only (k a)) → TypeError_only (cbind c k).
Proof.
  intros Hc Hk e. destruct c as [a|e']; cbn [cbind].
  - apply Hk.
  - intros [= <-]. by apply Hc.
Qed.

Lemma Get_TypeError_only (O : value _) (P : string) : TypeError_only (Get O P).
Proof. destruct O; first [apply TypeError_only_Normal | apply TypeError_only_Throw]. Qed.

Lemma ToString_TypeError_only : ∀ v : value _, TypeError_only (ToString v).
Proof.
  fix IH 1. intros [| |[]| | |items|fields]; cbn [ToString];
    try apply TypeError_only_Normal.
  - assert (∀ x : value _, TypeError_only
      match x with
      | VUndefined | VNull => Normal EmptyString
      | _ => ToString x
      end) as Helement.
    { intros x. pose proof (IH x) as Hx.
      destruct x; first [apply TypeError_only_Normal | exact Hx]. }
    clear IH. induction items as [|x [|y items] IHitems].
    + apply TypeError_only_Normal.
    + apply Helement.
    + apply TypeError_only_cbind; [apply Helement |]. intros s.
      apply TypeError_only_cbind; [exact IHitems |]. intros r.
      apply TypeError_only_Normal.
  - destruct (own_property fields "toString");
      [apply TypeError_only_Throw | apply TypeError_only_Normal].
Qed.

Ltac TypeError_only_steps :=
  repeat first
    [ apply TypeError_only_Normal
    | apply TypeError_only_Throw
    | apply Get_TypeError_only
    | apply ToString_TypeError_only
    | apply TypeError_only_cbind; [| intros ?] ].

Lemma substitute_TypeError_only (O : value _) (P : string) :
  TypeError_only (substitute O P).
Proof. unfold substitute. TypeError_only_steps. Qed.

Lemma forEach_from_TypeError_only {A}
    (callbackfn : value _ → nat → A → completion A) (items : list (value _)) :
  (∀ info index a, TypeError_only (callbackfn info index a)) →
  ∀ index a, TypeError_only (forEach_from callbackfn items index a).
Proof.
  intros Hcb. induction items as [|x items IH]; intros index a; cbn [forEach_from].
  - apply TypeError_only_Normal.
  - apply TypeError_only_cbind; [apply Hcb | intros a'; apply IH].
Qed.

Lemma Invoke_forEach_TypeError_only {A} (O : value _)
    (callbackfn : value _ → nat → A → completion A) (a : A) :
  (∀ info index a, TypeError_only (callbackfn info index a)) →
  TypeError_only (Invoke_forEach O callbackfn a).
Proof.
  intros Hcb.
  destruct O; first [apply TypeError_only_Throw | by apply forEach_from_TypeError_only].
Qed.

Lemma resizeInfoLine_TypeError_only (info : value _) (index : nat) (message : string) :
  TypeError_only (resizeInfoLine info index message).
Proof.
  unfold resizeInfoLine.
  repeat (apply TypeError_only_cbind; [apply substitute_TypeError_only | intros ?]).
  apply TypeError_only_cbind; [apply Get_TypeError_only | intros constraint].
  apply TypeError_only_cbind; [| intros ?; apply TypeError_only_Normal].
  destruct (ToBoolean constraint); [| apply TypeError_only_Normal].
  apply TypeError_only_cbind; [apply substitute_TypeError_only |].
  intros ?. apply TypeError_only_Normal.
Qed.

Lemma megapixelReducerLine_TypeError_only (info : value _) (index : nat)
    (message : string) :
  TypeError_only (megapixelReducerLine info index message).
Proof.
  unfold megapixelReducerLine.
  repeat (apply TypeError_only_cbind; [apply substitute_TypeError_only | intros ?]).
  apply TypeError_only_Normal.
Qed.

Lemma resizeInfoMessage_TypeError_only (data : value _) :
  TypeError_only (resizeInfoMessage data).
Proof.
  unfold resizeInfoMessage.
  repeat (apply TypeError_only_cbind; [apply substitute_TypeError_only | intros ?]).
  apply TypeError_only_cbind; [apply Get_TypeError_only | intros resize_info].
  apply Invoke_forEach_TypeError_only, resizeInfoLine_TypeError_only.
Qed.

Lemma Invoke_toFixed_TypeError_only (O : value _) (digits : nat) :
  TypeError_only (Invoke_toFixed O digits).
Proof. destruct O; first [apply TypeError_only_Throw | apply TypeError_only_Normal]. Qed.

Lemma megapixelReducerMessage_TypeError_only (data : value _) :
  TypeError_only (megapixelReducerMessage data).
Proof.
  unfold megapixelReducerMessage.
  apply TypeError_only_cbind; [apply substitute_TypeError_only | intros ?].
  apply TypeError_only_cbind; [apply Get_TypeError_only | intros ?].
  apply TypeError_only_cbind; [apply Invoke_toFixed_TypeError_only | intros ?].
  repeat (apply TypeError_only_cbind; [apply substitute_TypeError_only | intros ?]).
  apply TypeError_only_cbind; [apply Get_TypeError_only | intros resize_info].
  apply Invoke_forEach_TypeError_only, megapixelReducerLine_TypeError_only.
Qed.




(** A listener whose message cannot be built throws before it logs. *)
Lemma resizeInfoHandler_no_message (data : value _) (c : console) :
  (∀ m, resizeInfoMessage data ≠ Normal m) →
  resizeInfoHandler (CustomEvent data) c = (Throw TypeError, c).
Proof.
  intros Hno. unfold resizeInfoHandler, bind, lift. rewrite Get_detail.
  destruct (resizeInfoMessage data) as [m|e] eqn:Hm; [by destruct (Hno m) |].
  by rewrite (resizeInfoMessage_TypeError_only _ _ Hm).
Qed.

Lemma megapixelReducerHandler_no_message (data : value _) (c : console) :
  (∀ m, megapixelReducerMessage data ≠ Normal m) →
  megapixelReducerHandler (CustomEvent data) c = (Throw TypeError, c).
Proof.
  intros Hno. unfold megapixelReducerHandler, bind, lift. rewrite Get_detail.
  destruct (megapixelReducerMessage data) as [m|e] eqn:Hm; [by destruct (Hno m) |].
  by rewrite (megapixelReducerMessage_TypeError_only _ _ Hm).
Qed.

Ltac step_cbind :=
  match goal with
  | |- cbind ?c _ = Normal _ → _ =>
      let e := fresh "e" in
      destruct c as [?|e] eqn:?; cbn [cbind]; [| discriminate]
  end.

(** A [forEach] of either callback gets through entries only: an undefined
    or null element makes the property read throw. *)
Lemma forEach_from_entries (callbackfn : value _ → nat → string → completion string)
    (items : list (value _)) :
  (∀ index message, callbackfn VUndefined index message = Throw TypeError) →
  (∀ index message, callbackfn VNull index message = Throw TypeError) →
  ∀ index message m,
    forEach_from callbackfn items index message = Normal m →
    Forall (λ info, info ≠ VUndefined ∧ info ≠ VNull) items.
Proof.
  intros Hundefined Hnull.
  induction items as [|x items IH]; intros index message m; [by constructor |].
  cbn [forEach_from]. step_cbind. intros Hrest. constructor; [| by eapply IH].
  split; intros ->; congruence.
Qed.

(** What a built message tells about the detail: its resize_info is an
    array, none of whose elements is undefined or null. *)
Lemma resizeInfoMessage_built (data : value _) (m : string) :
  resizeInfoMessage data = Normal m →
  ∃ items, Get data "resize_info" = Normal (VArr items)
           ∧ Forall (λ info, info ≠ VUndefined ∧ info ≠ VNull) items.
Proof.
  unfold resizeInfoMessage. do 5 step_cbind.
  destruct (Get data "resize_info") as [[| | | | |items|]|e] eqn:Hinfo;
    cbn [cbind Invoke_forEach]; try discriminate.
  intros Hlines. exists items. split; [done |].
  by eapply (forEach_from_entries resizeInfoLine).
Qed.

Lemma megapixelReducerMessage_built (data : value _) (m : string) :
  megapixelReducerMessage data = Normal m →
  ∃ n items, Get data "original_megapixels" = Normal (VNum n)
             ∧ Get data "resize_info" = Normal (VArr items)
             ∧ Forall (λ info, info ≠ VUndefined ∧ info ≠ VNull) items.
Proof.
  unfold megapixelReducerMessage. step_cbind.
  destruct (Get data "original_megapixels") as [[| | |n| | |]|e] eqn:Hnumber;
    cbn [cbind Invoke_toFixed]; try discriminate.
  do 2 step_cbind.
  destruct (Get data "resize_info") as [[| | | | |items|]|e'] eqn:Hinfo;
    cbn [cbind Invoke_forEach]; try discriminate.
  intros Hlines. exists n, items. split; [done |]. split; [done |].
  by eapply (forEach_from_entries megapixelReducerLine).
Qed.

(** X4: when the resize_info of the detail is anything but an array
    (missing, null, a string, a number, an object), both listeners throw a
    TypeError before they log anything. *)
Theorem sequence_is_required (data : value _) (c : console) :
  (∀ items, Get data "resize_info" ≠ Normal (VArr items)) →
  resizeInfoHandler (CustomEvent data) c = (Throw TypeError, c)
  ∧ megapixelReducerHandler (CustomEvent data) c = (Throw TypeError, c).
Proof.
  intros Hno. split.
  - apply resizeInfoHandler_no_message. intros m Hm.
    apply resizeInfoMessage_built in Hm as (items & Hitems & _).
    by destruct (Hno items).
  - apply megapixelReducerHandler_no_message. intros m Hm.
    apply megapixelReducerMessage_built in Hm as (n & items & _ & Hitems & _).
    by destruct (Hno items).
Qed.

(** X5: when the original_megapixels of the detail is anything but a
    number, [megapixelReducerHandler] throws a TypeError before it logs
    anything, whatever the other fields are. *)
Theorem original_megapixels_is_required (data : value _) (c : console) :
  (∀ n, Get data "original_megapixels" ≠ Normal (VNum n)) →
  megapixelReducerHandler (CustomEvent data) c = (Throw TypeError, c).
Proof.
  intros Hno. apply megapixelReducerHandler_no_message. intros m Hm.
  apply megapixelReducerMessage_built in Hm as (n & items & Hn & _).
  by destruct (Hno n).
Qed.

(** X6: when the resize_info array holds a null or an undefined element,
    both listeners throw a TypeError before they log anything. *)
Theorem null_entry_throws (data : value _) (items : list (value _)) (c : console) :
  Get data "resize_info" = Normal (VArr items) →
  VNull ∈ items ∨ VUndefined ∈ items →
  resizeInfoHandler (CustomEvent data) c = (Throw TypeError, c)
  ∧ megapixelReducerHandler (CustomEvent data) c = (Throw TypeError, c).
Proof.
  intros Hitems Hnull.
  assert (¬ Forall (λ info : value _, info ≠ VUndefined ∧ info ≠ VNull) items)
    as Hbad.
  { rewrite Forall_forall. intros Hall.
    destruct Hnull as [Hin|Hin]; apply Hall in Hin as [Hu Hn]; congruence. }
  split.
  - apply resizeInfoHandler_no_message. intros m Hm.
    apply resizeInfoMessage_built in Hm as (items' & Hitems' & Hall).
    congruence.
  - apply megapixelReducerHandler_no_message. intros m Hm.
    apply megapixelReducerMessage_built in Hm as (n & items' & _ & Hitems' & Hall).
    congruence.
Qed.

(** X2: on a well-formed event a listener always returns; it logs the
    message after the raw detail exactly when the [new] of some entry does
    not contain the text [unchanged], and the raw detail alone exactly when
    the [new] of every entry contains it. *)
Theorem message_logged_iff_some_resized (e : Event _) (c : console) :
  (handle e c).1 = Normal VUndefined
  ∧ (handle e c = (Normal VUndefined, c ++ [raw_log e; [VStr (formatted e)]])
     ↔ ∃ s, s ∈ new_fields e ∧ ¬ contains s "unchanged")
  ∧ (handle e c = (Normal VUndefined, c ++ [raw_log e])
     ↔ ∀ s, s ∈ new_fields e → contains s "unchanged").
Proof.
  rewrite handle_event, <- any_resized_true. split; [done |].
  destruct (any_resized (new_fields e)) eqn:Hany.
  - split; [done |]. split.
    + intros [= Heq]. by apply app_inv_head in Heq.
    + intros Hall. apply any_resized_true in Hany as (s & Hin & Hs).
      by destruct Hs; apply Hall.
  - split.
    + split; [| done]. intros [= Heq]. by apply app_inv_head in Heq.
    + split; [| done]. intros _ s Hin.
      destruct (String_includes s "unchanged") eqn:Hs;
        [by apply String_includes_contains |].
      assert (any_resized (new_fields e) = true) as Habs; [| congruence].
      apply any_resized_true. exists s. split; [done |].
      rewrite <- String_includes_contains. congruence.
Qed.

(** X1: for every well-formed MegapixelReducerEvent with N entries, the
    message [megapixelReducerHandler] builds is its header followed by
    exactly N lines, the i-th of them
    [Image i+1: original → new (megapixels) [scale: scale]]. *)
Theorem megapixel_message_lines (ev : MegapixelReducerEvent _) :
  ∃ lines,
    megapixelReducerMessage (megapixel_detail ev)
      = Normal (megapixel_header ev +:+ lines_text lines)
    ∧ length lines = length (mp_resize_info ev)
    ∧ ∀ i e, mp_resize_info ev !! i = Some e →
        lines !! i
        = Some ("Image " +:+ pretty (i + 1) +:+ ": " +:+ mp_original e
                  +:+ " → " +:+ mp_new e +:+ " (" +:+ mp_megapixels e
                  +:+ ") [scale: " +:+ mp_scale e +:+ "]").
Proof.
  exists (imap mp_image_line (mp_resize_info ev)). split; [| split].
  - apply megapixelReducerMessage_event.
  - apply length_imap.
  - intros i e Hi. by rewrite list_lookup_imap, Hi.
Qed.

(** ** The scan of [some] on entries without their [new] *)

Lemma some_of_app (predicate : value _ → completion bool) (l1 l2 : list (value _)) :
  some_of predicate (l1 ++ l2)
  = cbind (some_of predicate l1)
      (λ found, if found then Normal true else some_of predicate l2).
Proof.
  induction l1 as [|x l1 IH]; [done |]. cbn [app some_of].
  destruct (predicate x) as [[|]|e]; cbn [cbind]; [done | exact IH | done].
Qed.

Lemma was_resized_without_new (e : MalformedEntry) :
  m_new e = None → was_resized (malformed_entry_value e) = Throw TypeError.
Proof.
  intros Hnew. unfold was_resized. rewrite !Get_object by done.
  assert (field (malformed_entry_value e) "new" = VUndefined) as ->; [| done].
  unfold malformed_entry_value. rewrite !field_with_field, Hnew.
  by destruct (m_original e).
Qed.

Lemma some_of_unchanged_entries (entries : list MalformedEntry) :
  Forall (λ x, ∃ s, m_new x = Some s ∧ contains s "unchanged") entries →
  some_of was_resized (malformed_entry_value <$> entries) = Normal false.
Proof.
  induction 1 as [|e entries (s & Hs & Hunchanged) _ IH]; [done |].
  cbn [fmap list_fmap some_of].
  rewrite (was_resized_string _ s) by (done || by apply malformed_entry_new).
  apply String_includes_contains in Hunchanged. rewrite Hunchanged. exact IH.
Qed.

(** The scan of a handler, whatever it gives: the raw detail is logged
    before it, the message after it when it finds a resized image. *)
Lemma resizeInfoHandler_scan (data : value _) (message : string)
    (items : list (value _)) (c : console) :
  resizeInfoMessage data = Normal message →
  field data "resize_info" = VArr items →
  is_object data = true →
  resizeInfoHandler (CustomEvent data) c
  = match some_of was_resized items with
    | Normal true =>
        (Normal VUndefined,
         c ++ [[VStr "Aspect Ratio Resizer:"; data]; [VStr message]])
    | Normal false => (Normal VUndefined, c ++ [[VStr "Aspect Ratio Resizer:"; data]])
    | Throw e => (Throw e, c ++ [[VStr "Aspect Ratio Resizer:"; data]])
    end.
Proof.
  intros Hmsg Hitems HO. unfold resizeInfoHandler, bind, lift, console_log, ret.
  rewrite Get_detail, Hmsg, Get_object, Hitems by done. cbn [Invoke_some].
  destruct (some_of was_resized items) as [[|]|e]; [by rewrite <- app_assoc | done..].
Qed.

Lemma megapixelReducerHandler_scan (data : value _) (message : string)
    (items : list (value _)) (c : console) :
  megapixelReducerMessage data = Normal message →
  field data "resize_info" = VArr items →
  is_object data = true →
  megapixelReducerHandler (CustomEvent data) c
  = match some_of was_resized items with
    | Normal true =>
        (Normal VUndefined,
         c ++ [[VStr "Auto Megapixel Reducer:"; data]; [VStr message]])
    | Normal false => (Normal VUndefined, c ++ [[VStr "Auto Megapixel Reducer:"; data]])
    | Throw e => (Throw e, c ++ [[VStr "Auto Megapixel Reducer:"; data]])
    end.
Proof.
  intros Hmsg Hitems HO. unfold megapixelReducerHandler, bind, lift, console_log, ret.
  rewrite Get_detail, Hmsg, Get_object, Hitems by done. cbn [Invoke_some].
  destruct (some_of was_resized items) as [[|]|e]; [by rewrite <- app_assoc | done..].
Qed.

(** X7: when the first entry whose [new] does not mention [unchanged] is
    one without a [new] at all, [resizeInfoHandler] logs the raw detail and
    then throws a TypeError; the message, although built with [undefined] in
    the place of that [new], is not logged.  With original_megapixels
    present, [megapixelReducerHandler] does the same. *)
Theorem missing_new_throws_after_raw_log (ev : MalformedEvent _)
    (before after : list MalformedEntry) (e : MalformedEntry) (c : console) :
  m_resize_info ev = Some (before ++ e :: after) →
  Forall (λ x, ∃ s, m_new x = Some s ∧ contains s "unchanged") before →
  m_new e = None →
  resizeInfoHandler (CustomEvent (malformed_detail ev)) c
    = (Throw TypeError, c ++ [[VStr "Aspect Ratio Resizer:"; malformed_detail ev]])
  ∧ ∀ n, m_original_megapixels ev = Some n →
      megapixelReducerHandler (CustomEvent (malformed_detail ev)) c
      = (Throw TypeError,
         c ++ [[VStr "Auto Megapixel Reducer:"; malformed_detail ev]]).
Proof.
  intros Hinfo Hbefore Hnew.
  assert (some_of was_resized (malformed_entry_value <$> before ++ e :: after)
          = Throw TypeError) as Hscan.
  { rewrite fmap_app, some_of_app, some_of_unchanged_entries by done.
    cbn [cbind fmap list_fmap some_of]. by rewrite was_resized_without_new. }
  split; [| intros n Hn].
  - rewrite (resizeInfoHandler_scan _ _ _ _
               (malformed_resizeInfoMessage _ _ Hinfo)
               (malformed_resize_info _ _ Hinfo) eq_refl).
    by rewrite Hscan.
  - rewrite (megapixelReducerHandler_scan _ _ _ _
               (malformed_megapixelReducerMessage _ _ _ Hn Hinfo)
               (malformed_resize_info _ _ Hinfo) eq_refl).
    by rewrite Hscan.
Qed.

(** X8: the scan stops at the first resized image: when an entry has a
    [new] without the text [unchanged] and the entries before it have a [new]
    with that text, [resizeInfoHandler] returns after logging the raw detail
    and the message, whatever the entries after it lack; so does
    [megapixelReducerHandler] when original_megapixels is present. *)
Theorem scan_stops_at_first_resized (ev : MalformedEvent _)
    (before after : list MalformedEntry) (e : MalformedEntry) (s : string)
    (c : console) :
  m_resize_info ev = Some (before ++ e :: after) →
  Forall (λ x, ∃ s, m_new x = Some s ∧ contains s "unchanged") before →
  m_new e = Some s →
  ¬ contains s "unchanged" →
  resizeInfoHandler (CustomEvent (malformed_detail ev)) c
    = (Normal VUndefined,
       c ++ [[VStr "Aspect Ratio Resizer:"; malformed_detail ev];
             [VStr (malformed_resize_message ev (before ++ e :: after))]])
  ∧ ∀ n, m_original_megapixels ev = Some n →
      megapixelReducerHandler (CustomEvent (malformed_detail ev)) c
      = (Normal VUndefined,
         c ++ [[VStr "Auto Megapixel Reducer:"; malformed_detail ev];
               [VStr (malformed_megapixel_message ev n (before ++ e :: after))]]).
Proof.
  intros Hinfo Hbefore Hnew Hresized.
  assert (some_of was_resized (malformed_entry_value <$> before ++ e :: after)
          = Normal true) as Hscan.
  { rewrite fmap_app, some_of_app, some_of_unchanged_entries by done.
    cbn [cbind fmap list_fmap some_of].
    rewrite (was_resized_string _ s) by (done || by apply malformed_entry_new).
    rewrite <- String_includes_contains in Hresized.
    by destruct (String_includes s "unchanged"). }
  split; [| intros n Hn].
  - rewrite (resizeInfoHandler_scan _ _ _ _
               (malformed_resizeInfoMessage _ _ Hinfo)
               (malformed_resize_info _ _ Hinfo) eq_refl).
    by rewrite Hscan.
  - rewrite (megapixelReducerHandler_scan _ _ _ _
               (malformed_megapixelReducerMessage _ _ _ Hn Hinfo)
               (malformed_resize_info _ _ Hinfo) eq_refl).
    by rewrite Hscan.
Qed.

End Failures.

(** * Beyond the claims: the wrapped hook on other prototypes *)

Section Wrapping.
Context `{JSNumber}.

Lemma decorate_lookup_other (title color bgcolor P : string)
    (this : gmap string (value _)) :
  P ≠ "title" → P ≠ "color" → P ≠ "bgcolor" →
  decorate title color bgcolor this !! P = this !! P.
Proof. intros Ht Hc Hb. unfold decorate. by rewrite !lookup_insert_ne. Qed.

Lemma decorate_idempotent (title color bgcolor : string)
    (this : gmap string (value _)) :
  decorate title color bgcolor (decorate title color bgcolor this)
  = decorate title color bgcolor this.
Proof.
  apply map_eq. intros P. unfold decorate.
  rewrite !lookup_insert. by repeat case_decide.
Qed.

(** X9: on both node types, when the prototype holds under onNodeCreated a
    value that is neither a function nor undefined nor null, every
    invocation of the wrapped hook throws a TypeError and leaves the node as
    it was: no title, no colour is written. *)
Theorem non_callable_hook_throws (nodeType : NodeType _) (nodeData : NodeData _)
    (type_name title color bgcolor : string) (v : value _) :
  (type_name, (title, color, bgcolor)) ∈ styles →
  name nodeData = VStr type_name →
  onNodeCreated (prototype nodeType) = Data v →
  v ≠ VUndefined → v ≠ VNull →
  ∃ wrapped,
    onNodeCreated (prototype (beforeRegisterNodeDef nodeType nodeData))
      = Function wrapped
    ∧ ∀ arguments this, wrapped arguments this = (Throw TypeError, this).
Proof.
  intros Hstyle Hname Hdata Hundefined Hnull.
  destruct (beforeRegisterNodeDef_styled nodeType nodeData _ _ _ _ Hstyle Hname)
    as (wrapped & Hinstalled & Hruns).
  exists wrapped. split; [done |].
  intros arguments this. rewrite Hruns, Hdata. by destruct v.
Qed.

(** X10: a null onNodeCreated is treated as an absent one: the wrapped hook
    calls nothing, writes the title and the two colours, and returns
    undefined. *)
Theorem null_hook_is_skipped (nodeType : NodeType _) (nodeData : NodeData _)
    (type_name title color bgcolor : string) :
  (type_name, (title, color, bgcolor)) ∈ styles →
  name nodeData = VStr type_name →
  onNodeCreated (prototype nodeType) = Data VNull →
  ∃ wrapped,
    onNodeCreated (prototype (beforeRegisterNodeDef nodeType nodeData))
      = Function wrapped
    ∧ ∀ arguments this,
        wrapped arguments this
        = (Normal VUndefined, decorate title color bgcolor this).
Proof.
  intros Hstyle Hname Hnull.
  destruct (beforeRegisterNodeDef_styled nodeType nodeData _ _ _ _ Hstyle Hname)
    as (wrapped & Hinstalled & Hruns).
  exists wrapped. split; [done |].
  intros arguments this. by rewrite Hruns, Hnull.
Qed.

(** X11: the wrapped hook writes nothing but title, color and bgcolor: when
    an invocation returns, every other property of the node is as the
    pre-existing hook left it (as it was, when there is no such hook). *)
Theorem wrapper_writes_three_properties (nodeType : NodeType _)
    (nodeData : NodeData _) (type_name title color bgcolor : string) :
  (type_name, (title, color, bgcolor)) ∈ styles →
  name nodeData = VStr type_name →
  ∃ wrapped,
    onNodeCreated (prototype (beforeRegisterNodeDef nodeType nodeData))
      = Function wrapped
    ∧ ∀ arguments this result this',
        wrapped arguments this = (Normal result, this') →
        ∃ this0,
          optional_apply (onNodeCreated (prototype nodeType)) arguments this
            = (Normal result, this0)
          ∧ ∀ P, P ≠ "title" → P ≠ "color" → P ≠ "bgcolor" →
              this' !! P = this0 !! P.
Proof.
  intros Hstyle Hname.
  destruct (beforeRegisterNodeDef_styled nodeType nodeData _ _ _ _ Hstyle Hname)
    as (wrapped & Hinstalled & Hruns).
  exists wrapped. split; [done |].
  intros arguments this result this'. rewrite Hruns.
  destruct (optional_apply _ arguments this) as [[r|e] this0]; [| done].
  intros [= <- <-]. exists this0. split; [done |].
  intros P Ht Hc Hb. by apply decorate_lookup_other.
Qed.

(** X12: registering a node type twice wraps the wrapper, and changes
    nothing one can observe: the twice wrapped hook gives, on every
    receiver and arguments, the completion and the node of the once wrapped
    one. *)
Theorem double_registration_is_harmless (nodeType : NodeType _)
    (nodeData : NodeData _) (type_name title color bgcolor : string) :
  (type_name, (title, color, bgcolor)) ∈ styles →
  name nodeData = VStr type_name →
  ∃ once twice,
    onNodeCreated (prototype (beforeRegisterNodeDef nodeType nodeData))
      = Function once
    ∧ onNodeCreated
        (prototype (beforeRegisterNodeDef
                      (beforeRegisterNodeDef nodeType nodeData) nodeData))
      = Function twice
    ∧ ∀ arguments this, twice arguments this = once arguments this.
Proof.
  intros Hstyle Hname.
  destruct (beforeRegisterNodeDef_styled nodeType nodeData _ _ _ _ Hstyle Hname)
    as (once & Honce & Hruns1).
  destruct (beforeRegisterNodeDef_styled
              (beforeRegisterNodeDef nodeType nodeData) nodeData _ _ _ _
              Hstyle Hname) as (twice & Htwice & Hruns2).
  exists once, twice. split; [done |]. split; [done |].
  intros arguments this. rewrite Hruns2, Honce. cbn [optional_apply].
  rewrite Hruns1.
  destruct (optional_apply _ arguments this) as [[r|e] this0]; [| done].
  by rewrite decorate_idempotent.
Qed.

End Wrapping.

(** * Runs of the further properties *)

Lemma megapixel_message_lines_witness :
  ∃ lines,
    megapixelReducerMessage (megapixel_detail reduced_event)
      = Normal (megapixel_header reduced_event +:+ lines_text lines)
    ∧ length lines = 1
    ∧ lines !! 0
      = Some "Image 1: 3840x2160 → 1884x1060 (2.0MP) [scale: 0.491]".
Proof.
  destruct (megapixel_message_lines reduced_event)
    as (lines & Hmessage & Hlength & Hlines).
  exists lines. split; [exact Hmessage |]. split; [exact Hlength |].
  exact (Hlines 0 _ eq_refl).
Defined.

Lemma sequence_is_required_witness :
  resizeInfoHandler (CustomEvent text_sequence_detail) [] = (Throw TypeError, [])
  ∧ megapixelReducerHandler (CustomEvent text_sequence_detail) []
    = (Throw TypeError, []).
Proof.
  apply (sequence_is_required text_sequence_detail []).
  intros items. discriminate.
Defined.

Lemma original_megapixels_is_required_witness :
  megapixelReducerHandler (CustomEvent text_megapixels_detail) []
  = (Throw TypeError, []).
Proof.
  apply (original_megapixels_is_required text_megapixels_detail []).
  intros n. discriminate.
Defined.

Lemma null_entry_throws_witness :
  resizeInfoHandler (CustomEvent null_entry_detail) [] = (Throw TypeError, [])
  ∧ megapixelReducerHandler (CustomEvent null_entry_detail) []
    = (Throw TypeError, []).
Proof.
  apply (null_entry_throws null_entry_detail [VNull] [] eq_refl).
  left. left.
Defined.

Lemma unchanged_entry_mentions_unchanged :
  Forall (λ x, ∃ s, m_new x = Some s ∧ contains s "unchanged") [unchanged_entry].
Proof.
  constructor; [| constructor]. exists "unchanged". split; [reflexivity |].
  by exists EmptyString, EmptyString.
Qed.

Lemma missing_new_throws_after_raw_log_witness :
  resizeInfoHandler
    (CustomEvent (malformed_detail (payload_of [unchanged_entry; entry_without_new])))
    []
  = (Throw TypeError,
     [[VStr "Aspect Ratio Resizer:";
       malformed_detail (payload_of [unchanged_entry; entry_without_new])]]).
Proof.
  apply (missing_new_throws_after_raw_log
           (payload_of [unchanged_entry; entry_without_new])
           [unchanged_entry] [] entry_without_new [] eq_refl
           unchanged_entry_mentions_unchanged eq_refl).
Defined.

Lemma scan_stops_at_first_resized_witness :
  resizeInfoHandler
    (CustomEvent (malformed_detail
       (payload_of [unchanged_entry; resized_entry; entry_without_new]))) []
  = (Normal VUndefined,
     [[VStr "Aspect Ratio Resizer:";
       malformed_detail
         (payload_of [unchanged_entry; resized_entry; entry_without_new])];
      [VStr ("Aspect Ratio Resizer Results:" +:+ LF
               +:+ "Constraints: width" +:+ LF
               +:+ "Resize Mode: undefined" +:+ LF
               +:+ "Width Enabled: undefined" +:+ LF
               +:+ "Height Enabled: undefined" +:+ LF
               +:+ "Batch Size: undefined" +:+ LF +:+ LF
               +:+ "Image 1: 800x600 → unchanged (scale: 1.000)" +:+ LF
               +:+ "Image 2: 1920x1080 → 1024x576 (scale: 0.533)" +:+ LF
               +:+ "Image 3: 640x480 → undefined (scale: undefined)" +:+ LF)]]).
Proof.
  apply (scan_stops_at_first_resized
           (payload_of [unchanged_entry; resized_entry; entry_without_new])
           [unchanged_entry] [entry_without_new] resized_entry "1024x576" []
           eq_refl unchanged_entry_mentions_unchanged eq_refl).
  by apply not_contains.
Defined.

Lemma non_callable_hook_throws_witness :
  ∃ wrapped,
    onNodeCreated (prototype (beforeRegisterNodeDef numbered_type
                                {| name := VStr "AspectRatioResizer" |}))
      = Function wrapped
    ∧ ∀ arguments this, wrapped arguments this = (Throw TypeError, this).
Proof.
  apply (non_callable_hook_throws numbered_type
           {| name := VStr "AspectRatioResizer" |}
           "AspectRatioResizer" "Aspect Ratio Resizer" "#2a4d3a" "#335544"
           (VNum (3%Z : @number IntegerNumber)) (list_elem_of_here _ _)
           eq_refl eq_refl); discriminate.
Defined.

Lemma null_hook_is_skipped_witness :
  ∃ wrapped,
    onNodeCreated (prototype (beforeRegisterNodeDef null_type
                                {| name := VStr "AutoMegapixelReducer" |}))
      = Function wrapped
    ∧ ∀ arguments this,
        wrapped arguments this
        = (Normal VUndefined,
           decorate "Auto Megapixel Reducer" "#4d2a3a" "#553344" this).
Proof.
  exact (null_hook_is_skipped null_type {| name := VStr "AutoMegapixelReducer" |}
           "AutoMegapixelReducer" "Auto Megapixel Reducer" "#4d2a3a" "#553344"
           (list_elem_of_further _ _ _ (list_elem_of_here _ _)) eq_refl eq_refl).
Defined.

Lemma wrapper_writes_three_properties_witness :
  ∃ wrapped,
    onNodeCreated (prototype (beforeRegisterNodeDef hooked_type
                                {| name := VStr "AspectRatioResizer" |}))
      = Function wrapped
    ∧ ∀ arguments this result this',
        wrapped arguments this = (Normal result, this') →
        ∃ this0,
          recording_hook arguments this = (Normal result, this0)
          ∧ ∀ P, P ≠ "title" → P ≠ "color" → P ≠ "bgcolor" →
              this' !! P = this0 !! P.
Proof.
  exact (wrapper_writes_three_properties hooked_type
           {| name := VStr "AspectRatioResizer" |}
           "AspectRatioResizer" "Aspect Ratio Resizer" "#2a4d3a" "#335544"
           (list_elem_of_here _ _) eq_refl).
Defined.

Lemma double_registration_is_harmless_witness :
  ∃ once twice,
    onNodeCreated (prototype (beforeRegisterNodeDef hooked_type
                                {| name := VStr "AspectRatioResizer" |}))
      = Function once
    ∧ onNodeCreated
        (prototype (beforeRegisterNodeDef
                      (beforeRegisterNodeDef hooked_type
                         {| name := VStr "AspectRatioResizer" |})
                      {| name := VStr "AspectRatioResizer" |}))
      = Function twice
    ∧ ∀ arguments this, twice arguments this = once arguments this.
Proof.
  exact (double_registration_is_harmless hooked_type
           {| name := VStr "AspectRatioResizer" |}
           "AspectRatioResizer" "Aspect Ratio Resizer" "#2a4d3a" "#335544"
           (list_elem_of_here _ _) eq_refl).
Defined.
